(** * The SQLite endpoint repository of beagle

    A shallow embedding of
    [src/server/storage/providers/sqlite/repositories/endpoint.go]:
    the statement texts the repository builds, the calls it makes on
    [database/sql], and the effect of those calls on one table.  The Go
    standard library and the SQLite engine are not part of the repository;
    they are represented by an executable reference model (sections
    "Go strings", "database/sql", "The table") that covers exactly the
    statements the repository issues. *)

From Stdlib Require Import String Ascii List Bool Arith ZArith NArith Lia.
From Stdlib Require Import DecimalString DecimalN Sorted Permutation.
Import ListNotations.

Local Open Scope list_scope.
Local Open Scope string_scope.

(* ================================================================== *)
(** ** Go strings *)

Module GoStrings.

(** [strings.HasPrefix(s, prefix)]:
    [len(s) >= len(prefix) && s[:len(prefix)] == prefix]. *)
Fixpoint HasPrefix (s prefix : string) {struct prefix} : bool :=
  match prefix with
  | EmptyString => true
  | String c prefix' =>
      match s with
      | EmptyString => false
      | String d s' => Ascii.eqb d c && HasPrefix s' prefix'
      end
  end.

(** [strings.HasSuffix(s, suffix)]:
    [len(s) >= len(suffix) && s[len(s)-len(suffix):] == suffix]. *)
Definition HasSuffix (s suffix : string) : bool :=
  Nat.leb (String.length suffix) (String.length s) &&
  String.eqb
    (substring (String.length s - String.length suffix) (String.length suffix) s)
    suffix.

(** [strings.Replace(s, old, new, -1)] for a non-empty [old]: every
    non-overlapping occurrence of [old], left to right.  [skip] counts the
    bytes of an occurrence that were already consumed. *)
Fixpoint replace_from (old new : string) (skip : nat) (s : string) : string :=
  match s with
  | EmptyString => EmptyString
  | String c s' =>
      match skip with
      | S k => replace_from old new k s'
      | O =>
          if HasPrefix s old
          then new ++ replace_from old new (String.length old - 1) s'
          else String c (replace_from old new 0 s')
      end
  end.

Definition Replace (s old new : string) : string := replace_from old new 0 s.

(** [fmt.Sprintf(format, args...)] for formats whose only verb is [%s]. *)
Fixpoint Sprintf (format : string) (args : list string) : string :=
  match format with
  | EmptyString => EmptyString
  | String "%" (String "s" rest) =>
      match args with
      | a :: args' => a ++ Sprintf rest args'
      | [] => "%!s(MISSING)" ++ Sprintf rest []
      end
  | String c rest => String c (Sprintf rest args)
  end.

(** [strconv.FormatUint(n, 10)]. *)
Definition FormatUint (n : N) : string :=
  NilEmpty.string_of_uint (N.to_uint n).

(** [strings.Join(elems, sep)]. *)
Definition Join (elems : list string) (sep : string) : string :=
  String.concat sep elems.

End GoStrings.
Import GoStrings.

(** Characters of a string that are not the given one. *)
Fixpoint remove_char (c : ascii) (s : string) : string :=
  match s with
  | EmptyString => EmptyString
  | String d s' =>
      if Ascii.eqb d c then remove_char c s' else String d (remove_char c s')
  end.

Fixpoint occurs (c : ascii) (s : string) : bool :=
  match s with
  | EmptyString => false
  | String d s' => Ascii.eqb d c || occurs c s'
  end.

Fixpoint last_char (s : string) : option ascii :=
  match s with
  | EmptyString => None
  | String c EmptyString => Some c
  | String _ s' => last_char s'
  end.

(* ================================================================== *)
(** ** Entities, filters, errors *)

(** [notification.Endpoint].  [Id] is a [uint64]; [Headers] is the
    serialized header map as it is stored. *)
Record Endpoint := mkEndpoint {
  Id : N;
  Name : string;
  Url : string;
  Method : string;
  Headers : string
}.

(** [storage.EndpointQuery]: the name pattern and the pagination window. *)
Record EndpointQuery := mkEndpointQuery {
  qName : string;
  qTake : Z;
  qSkip : Z
}.

(** A value bound to a statement parameter ([interface{}]): a string, a
    signed integer, or a [uint64] as the repository passes its
    identifiers. *)
Inductive value :=
| VStr (s : string)
| VInt (z : Z)
| VUint (n : N).

(** Errors.  [InvalidArgument] is an [errors.New] of the repository's own
    checks; the others come from [database/sql] and the engine. *)
Inductive error :=
| InvalidArgument (msg : string)
| ErrNoRows
| ErrTxDone
| ErrStmtClosed
| ErrBusy
| ErrSyntax
| ErrArgs
| ErrFull
| ErrScan
| ErrConvert
| ErrFault
| RollbackFailure (failure cause : error).

(* ================================================================== *)
(** ** Statement texts *)

Definition endpointSelectQuery := "SELECT id, name, url, method, headers FROM %s".
Definition endpointInsertQuery := "INSERT INTO %s (name, url, method, headers) VALUES %s".
Definition endpointInsertValuesQuery := "(?, ?, ?, ?)".
Definition endpointUpdateQuery := "UPDATE %s SET name=?, url=?, method=?, headers=? WHERE id=?".
Definition endpointDeleteQuery := "DELETE FROM %s".
Definition endpointCountQuery := "SELECT COUNT(id) from %s".

(** [SQLiteEndpointRepository]; the [db] field is the world the operations
    run in. *)
Record SQLiteEndpointRepository := NewSQLiteEndpointRepository {
  tableName : string
}.

(** Lines 59-99 of [Find]: the statement text and the bound arguments. *)
Definition find_statement (r : SQLiteEndpointRepository)
    (query : option EndpointQuery) : string * list value :=
  let args := [] in
  let findQuery := Sprintf endpointSelectQuery [tableName r] in
  match query with
  | Some query =>
      let '(findQuery, args) :=
        if negb (String.eqb (qName query) "") then
          let findQuery := findQuery ++ " WHERE" in
          let startsWith := HasPrefix (qName query) "*" in
          let endsWith := HasSuffix (qName query) "*" in
          let arg := qName query in
          let '(findQuery, arg) :=
            if startsWith || endsWith then
              let arg := Replace arg "*" "" in
              let arg :=
                if startsWith && endsWith then "%" ++ arg ++ "%"
                else if endsWith then arg ++ "%"
                else "%" ++ arg in
              (findQuery ++ " name LIKE ?", arg)
            else (findQuery ++ " name = ?", arg) in
          (findQuery, (args ++ [VStr arg])%list)
        else (findQuery, args) in
      let findQuery := findQuery ++ " ORDER BY id" in
      if (qTake query >? 0)%Z then
        (findQuery ++ " LIMIT ? OFFSET ?",
         (args ++ [VInt (qTake query); VInt (qSkip query)])%list)
      else (findQuery, args)
  | None => (findQuery ++ " ORDER BY id", args)
  end.

(** Modelled from the spec: [utils.JoinUintSlice] is not among the sources.
    DeleteMany "compiles one statement deleting all matching identifiers":
    the identifiers in decimal, joined by the separator, as the name of
    the function and its place inside [IN (...)] say. *)
Definition JoinUintSlice (ids : list N) (sep : string) : string :=
  Join (map FormatUint ids) sep.

Definition get_text (r : SQLiteEndpointRepository) : string :=
  Sprintf "%s WHERE id=? LIMIT 1" [Sprintf endpointSelectQuery [tableName r]].

Definition count_text (r : SQLiteEndpointRepository) : string :=
  Sprintf endpointCountQuery [tableName r].

Definition insert_text (r : SQLiteEndpointRepository) : string :=
  Sprintf endpointInsertQuery [tableName r; endpointInsertValuesQuery].

Definition update_text (r : SQLiteEndpointRepository) : string :=
  Sprintf endpointUpdateQuery [tableName r].

Definition delete_text (r : SQLiteEndpointRepository) : string :=
  Sprintf "%s WHERE id=?" [Sprintf endpointDeleteQuery [tableName r]].

Definition delete_many_text (r : SQLiteEndpointRepository) (ids : list N) : string :=
  Sprintf "%s WHERE id IN (%s)"
    [Sprintf endpointDeleteQuery [tableName r]; JoinUintSlice ids ", "].

(* ================================================================== *)
(** ** The table

    One table with an integer primary key and four text columns, and the
    meaning of the statements of the repository on it. *)

Record Row := mkRow {
  r_key : N;
  r_name : string;
  r_url : string;
  r_method : string;
  r_headers : string
}.

(** The identifier column is a 64-bit signed integer and the table holds
    no negative identifier: an identifier is below 2^63, the low 63 bits
    of what the row is built with. *)
Definition r_id (row : Row) : N := (r_key row mod 2 ^ 63)%N.

Inductive Where := WNone | WNameLike | WNameEq.

(** The statements the engine accepts. *)
Inductive Stmt :=
| SSelectById
| SSelect (cond : Where) (window : bool)
| SCount
| SInsert
| SUpdate
| SDeleteById
| SDeleteIn (ids : list N).

Module Sql.

Fixpoint strip_prefix (p s : string) : option string :=
  match p with
  | EmptyString => Some s
  | String c p' =>
      match s with
      | EmptyString => None
      | String d s' => if Ascii.eqb c d then strip_prefix p' s' else None
      end
  end.

(** The items of ["n, n, ..., n)"]. *)
Fixpoint id_items (s : string) : option (list string) :=
  match s with
  | EmptyString => None
  | String c s' =>
      if Ascii.eqb c ")" then
        match s' with EmptyString => Some [EmptyString] | _ => None end
      else if Ascii.eqb c "," then
        match s' with
        | String d s'' =>
            if Ascii.eqb d " " then option_map (cons EmptyString) (id_items s'')
            else None
        | EmptyString => None
        end
      else
        match id_items s' with
        | Some (h :: t) => Some (String c h :: t)
        | _ => None
        end
  end.

Definition parse_uint (s : string) : option N :=
  match s with
  | EmptyString => None
  | _ => option_map N.of_uint (NilEmpty.uint_of_string s)
  end.

Fixpoint parse_all (items : list string) : option (list N) :=
  match items with
  | [] => Some []
  | i :: items' =>
      match parse_uint i, parse_all items' with
      | Some n, Some ns => Some (n :: ns)
      | _, _ => None
      end
  end.

Definition parse_ids (s : string) : option (list N) :=
  match id_items s with
  | Some items => parse_all items
  | None => None
  end.

Definition select_tail (tail : string) : option Stmt :=
  if String.eqb tail " WHERE id=? LIMIT 1" then Some SSelectById
  else if String.eqb tail " ORDER BY id" then Some (SSelect WNone false)
  else if String.eqb tail " ORDER BY id LIMIT ? OFFSET ?" then Some (SSelect WNone true)
  else if String.eqb tail " WHERE name LIKE ? ORDER BY id" then Some (SSelect WNameLike false)
  else if String.eqb tail " WHERE name LIKE ? ORDER BY id LIMIT ? OFFSET ?"
       then Some (SSelect WNameLike true)
  else if String.eqb tail " WHERE name = ? ORDER BY id" then Some (SSelect WNameEq false)
  else if String.eqb tail " WHERE name = ? ORDER BY id LIMIT ? OFFSET ?"
       then Some (SSelect WNameEq true)
  else None.

Definition delete_tail (tail : string) : option Stmt :=
  if String.eqb tail " WHERE id=?" then Some SDeleteById
  else match strip_prefix " WHERE id IN (" tail with
       | Some list => option_map SDeleteIn (parse_ids list)
       | None => None
       end.

Definition after_table (tbl : string) (k : string -> option Stmt)
    (rest : string) : option Stmt :=
  match strip_prefix tbl rest with
  | Some tail => k tail
  | None => None
  end.

(** Statement preparation against a database whose only table is [tbl]. *)
Definition compile (tbl text : string) : option Stmt :=
  match strip_prefix "SELECT id, name, url, method, headers FROM " text with
  | Some rest => after_table tbl select_tail rest
  | None =>
  match strip_prefix "SELECT COUNT(id) from " text with
  | Some rest =>
      after_table tbl (fun tail => if String.eqb tail "" then Some SCount else None) rest
  | None =>
  match strip_prefix "INSERT INTO " text with
  | Some rest =>
      after_table tbl
        (fun tail =>
           if String.eqb tail " (name, url, method, headers) VALUES (?, ?, ?, ?)"
           then Some SInsert else None) rest
  | None =>
  match strip_prefix "UPDATE " text with
  | Some rest =>
      after_table tbl
        (fun tail =>
           if String.eqb tail " SET name=?, url=?, method=?, headers=? WHERE id=?"
           then Some SUpdate else None) rest
  | None =>
  match strip_prefix "DELETE FROM " text with
  | Some rest => after_table tbl delete_tail rest
  | None => None
  end end end end end.

(** ASCII case folding of [LIKE]. *)
Definition fold_case (c : ascii) : ascii :=
  let n := nat_of_ascii c in
  if (65 <=? n)%nat && (n <=? 90)%nat then ascii_of_nat (n + 32) else c.

Definition same_char (c d : ascii) : bool := Ascii.eqb (fold_case c) (fold_case d).

(** [s LIKE p]: [%] stands for any run of characters, [_] for any one
    character, every other character for itself up to ASCII case. *)
Fixpoint like (p s : string) : bool :=
  match p with
  | EmptyString => match s with EmptyString => true | _ => false end
  | String c p' =>
      if Ascii.eqb c "%" then
        (fix any (s : string) : bool :=
           like p' s ||
           match s with
           | EmptyString => false
           | String _ s' => any s'
           end) s
      else
        match s with
        | EmptyString => false
        | String d s' =>
            (Ascii.eqb c "_" || same_char c d) && like p' s'
        end
  end.

Definition max_id (rows : list Row) : N :=
  fold_right (fun row m => N.max (r_id row) m) 0%N rows.

Fixpoint insert_sorted (row : Row) (rows : list Row) : list Row :=
  match rows with
  | [] => [row]
  | x :: rows' =>
      if (r_id row <? r_id x)%N then row :: rows
      else x :: insert_sorted row rows'
  end.

(** [ORDER BY id]. *)
Definition order_by_id (rows : list Row) : list Row :=
  fold_right insert_sorted [] rows.

(** [LIMIT take OFFSET skip]: a negative limit is no limit, a negative
    offset is no offset. *)
Definition window (take skip : Z) (rows : list Row) : list Row :=
  let rest := skipn (Z.to_nat skip) rows in
  if (take <? 0)%Z then rest else firstn (Z.to_nat take) rest.

Definition columns (row : Row) : list value :=
  [VInt (Z.of_N (r_id row)); VStr (r_name row); VStr (r_url row);
   VStr (r_method row); VStr (r_headers row)].

Definition has_id (z : Z) (row : Row) : bool := (Z.of_N (r_id row) =? z)%Z.

Definition in_ids (ids : list N) (row : Row) : bool :=
  existsb (N.eqb (r_id row)) ids.

End Sql.

(** Go's [(T, error)] results; a bare [error] result is an [option error]. *)
Inductive res (A : Type) :=
| Ok (a : A)
| Err (e : error).
Arguments Ok {A} a.
Arguments Err {A} e.

(** A result set: rows of column values. *)
Definition ResultSet := list (list value).

Module Engine.
Import Sql.

Definition where_rows (cond : Where) (args : list value) (rows : list Row)
  : option (list Row * list value) :=
  match cond, args with
  | WNone, _ => Some (rows, args)
  | WNameLike, VStr p :: rest =>
      Some (filter (fun row => like p (r_name row)) rows, rest)
  | WNameEq, VStr p :: rest =>
      Some (filter (fun row => String.eqb (r_name row) p) rows, rest)
  | _, _ => None
  end.

Definition window_rows (windowed : bool) (args : list value) (rows : list Row)
  : option (list Row) :=
  match windowed, args with
  | false, [] => Some rows
  | true, [VInt take; VInt skip] => Some (window take skip rows)
  | _, _ => None
  end.

(** Reading statements. *)
Definition run_read (st : Stmt) (args : list value) (rows : list Row)
  : res ResultSet :=
  match st with
  | SSelectById =>
      match args with
      | [VInt id] => Ok (map columns (firstn 1 (filter (has_id id) rows)))
      | _ => Err ErrArgs
      end
  | SSelect cond windowed =>
      match where_rows cond args rows with
      | Some (selected, rest) =>
          match window_rows windowed rest (order_by_id selected) with
          | Some result => Ok (map columns result)
          | None => Err ErrArgs
          end
      | None => Err ErrArgs
      end
  | SCount =>
      match args with
      | [] => Ok [[VInt (Z.of_nat (List.length rows))]]
      | _ => Err ErrArgs
      end
  | _ => Err ErrArgs
  end.

Definition set_columns (name url method headers : string) (id : Z) (row : Row) : Row :=
  if has_id id row then mkRow (r_key row) name url method headers else row.

(** Writing statements: the new content and the last inserted row id. *)
Definition run_write (st : Stmt) (args : list value) (rows : list Row)
  : res (list Row * Z) :=
  match st with
  | SInsert =>
      match args with
      | [VStr name; VStr url; VStr method; VStr headers] =>
          let id := N.succ (max_id rows) in
          if (Z.of_N id <? 2 ^ 63)%Z
          then Ok ((rows ++ [mkRow id name url method headers])%list, Z.of_N id)
          else Err ErrFull
      | _ => Err ErrArgs
      end
  | SUpdate =>
      match args with
      | [VStr name; VStr url; VStr method; VStr headers; VInt id] =>
          Ok (map (set_columns name url method headers id) rows, 0%Z)
      | _ => Err ErrArgs
      end
  | SDeleteById =>
      match args with
      | [VInt id] => Ok (filter (fun row => negb (has_id id row)) rows, 0%Z)
      | _ => Err ErrArgs
      end
  | SDeleteIn ids =>
      match args with
      | [] => Ok (filter (fun row => negb (in_ids ids row)) rows, 0%Z)
      | _ => Err ErrArgs
      end
  | _ => Err ErrArgs
  end.

End Engine.

(* ================================================================== *)
(** ** database/sql

    The connection, its transactions and its prepared statements, as far as
    the repository uses them.  Every call that reaches the engine may fail:
    the [oracle] of the world decides it, call by call. *)

Inductive Event :=
| EvPrintln (line : string)
| EvBegin (tx : nat)
| EvCommit (tx : nat)
| EvRollback (tx : nat)
| EvPrepare (owner : option nat) (text : string)
| EvExec (stmt : nat) (args : list value)
| EvQuery (stmt : nat) (args : list value)
| EvClose (stmt : nat).

Record World := mkWorld {
  table : string;                            (* the table that exists *)
  rows : list Row;                           (* its committed content *)
  open_tx : option (nat * list Row);         (* the open transaction and its view *)
  stmts : list (nat * (option nat * Stmt));  (* the open statements and their owners *)
  next_handle : nat;
  oracle : nat -> bool;                      (* which engine calls fail *)
  clock : nat;                               (* engine calls made so far *)
  log : list Event                           (* calls on the driver, newest first *)
}.

Definition St (A : Type) : Type := World -> A * World.

Definition ret {A : Type} (a : A) : St A := fun w => (a, w).

Definition bind {A B : Type} (m : St A) (k : A -> St B) : St B :=
  fun w => let (a, w') := m w in k a w'.

Notation "x <- m ;; k" := (bind m (fun x => k))
  (at level 61, m at next level, right associativity).
Notation "m ;;; k" := (bind m (fun _ => k))
  (at level 61, right associativity).

Module Driver.
Import Engine.

Definition emit (ev : Event) : St unit := fun w =>
  (tt, mkWorld (table w) (rows w) (open_tx w) (stmts w) (next_handle w)
         (oracle w) (clock w) (ev :: log w)).

Definition fault : St bool := fun w =>
  (oracle w (clock w),
   mkWorld (table w) (rows w) (open_tx w) (stmts w) (next_handle w)
     (oracle w) (S (clock w)) (log w)).

Definition set_rows (content : list Row) : St unit := fun w =>
  (tt, mkWorld (table w) content (open_tx w) (stmts w) (next_handle w)
         (oracle w) (clock w) (log w)).

Definition set_open_tx (t : option (nat * list Row)) : St unit := fun w =>
  (tt, mkWorld (table w) (rows w) t (stmts w) (next_handle w)
         (oracle w) (clock w) (log w)).

Definition set_stmts (l : list (nat * (option nat * Stmt))) : St unit := fun w =>
  (tt, mkWorld (table w) (rows w) (open_tx w) l (next_handle w)
         (oracle w) (clock w) (log w)).

Definition fresh : St nat := fun w =>
  (next_handle w,
   mkWorld (table w) (rows w) (open_tx w) (stmts w) (S (next_handle w))
     (oracle w) (clock w) (log w)).

Definition get {A : Type} (f : World -> A) : St A := fun w => (f w, w).

(** The view of an open transaction. *)
Definition tx_view (t : nat) (w : World) : option (list Row) :=
  match open_tx w with
  | Some (t', view) => if Nat.eqb t' t then Some view else None
  | None => None
  end.

Fixpoint lookup_stmt (h : nat) (l : list (nat * (option nat * Stmt)))
  : option (option nat * Stmt) :=
  match l with
  | [] => None
  | (h', s) :: l' => if Nat.eqb h' h then Some s else lookup_stmt h l'
  end.

Definition owned_by (t : nat) (s : nat * (option nat * Stmt)) : bool :=
  match fst (snd s) with
  | Some t' => Nat.eqb t' t
  | None => false
  end.

(** [db.Begin()]: one writer at a time. *)
Definition Begin : St (res nat) :=
  bad <- fault ;;
  if bad then ret (Err ErrFault) else
  cur <- get open_tx ;;
  match cur with
  | Some _ => ret (Err ErrBusy)
  | None =>
      t <- fresh ;;
      content <- get rows ;;
      set_open_tx (Some (t, content)) ;;;
      emit (EvBegin t) ;;;
      ret (Ok t)
  end.

(** [db.Prepare(text)] ([owner = None]) and [tx.Prepare(text)]. *)
Definition Prepare (owner : option nat) (text : string) : St (res nat) :=
  emit (EvPrepare owner text) ;;;
  live <- get (fun w => match owner with
                        | Some t => match tx_view t w with Some _ => true | None => false end
                        | None => true
                        end) ;;
  if negb live then ret (Err ErrTxDone) else
  bad <- fault ;;
  if bad then ret (Err ErrFault) else
  tbl <- get table ;;
  match Sql.compile tbl text with
  | None => ret (Err ErrSyntax)
  | Some st =>
      h <- fresh ;;
      l <- get stmts ;;
      set_stmts ((h, (owner, st)) :: l) ;;;
      ret (Ok h)
  end.

(** [stmt.Close()]; the repository ignores its result. *)
Definition Close (h : nat) : St unit :=
  emit (EvClose h) ;;;
  l <- get stmts ;;
  set_stmts (filter (fun s => negb (Nat.eqb (fst s) h)) l).

(** [stmt.Close()] while the [*sql.Rows] of a query on the statement are
    open: the statement is released only when they are closed, and the
    call itself leaves it with the driver. *)
Definition CloseUnderRows (h : nat) : St unit :=
  emit (EvClose h).

(** The default parameter converter of [database/sql]: a [uint64] is
    passed on as a signed integer, and refused when its high bit is set. *)
Definition convert (v : value) : res value :=
  match v with
  | VUint n =>
      if (Z.of_N n <? 2 ^ 63)%Z then Ok (VInt (Z.of_N n)) else Err ErrConvert
  | _ => Ok v
  end.

Fixpoint convert_args (args : list value) : res (list value) :=
  match args with
  | [] => Ok []
  | v :: args' =>
      match convert v with
      | Err e => Err e
      | Ok v' =>
          match convert_args args' with
          | Err e => Err e
          | Ok vs => Ok (v' :: vs)
          end
      end
  end.

(** [stmt.Exec(args...)]; the result carries the last inserted row id. *)
Definition Exec (h : nat) (args : list value) : St (res Z) :=
  emit (EvExec h args) ;;;
  l <- get stmts ;;
  match lookup_stmt h l with
  | None => ret (Err ErrStmtClosed)
  | Some (Some t, st) =>
      v <- get (tx_view t) ;;
      match v with
      | None => ret (Err ErrTxDone)
      | Some view =>
          match convert_args args with
          | Err e => ret (Err e)
          | Ok bound =>
              bad <- fault ;;
              if bad then ret (Err ErrFault) else
              match run_write st bound view with
              | Err e => ret (Err e)
              | Ok (view', id) => set_open_tx (Some (t, view')) ;;; ret (Ok id)
              end
          end
      end
  | Some (None, st) =>
      match convert_args args with
      | Err e => ret (Err e)
      | Ok bound =>
          bad <- fault ;;
          if bad then ret (Err ErrFault) else
          content <- get rows ;;
          match run_write st bound content with
          | Err e => ret (Err e)
          | Ok (content', id) => set_rows content' ;;; ret (Ok id)
          end
      end
  end.

(** [stmt.Query(args...)]. *)
Definition Query (h : nat) (args : list value) : St (res ResultSet) :=
  emit (EvQuery h args) ;;;
  l <- get stmts ;;
  match lookup_stmt h l with
  | None => ret (Err ErrStmtClosed)
  | Some (Some t, st) =>
      v <- get (tx_view t) ;;
      match v with
      | None => ret (Err ErrTxDone)
      | Some view =>
          match convert_args args with
          | Err e => ret (Err e)
          | Ok bound =>
              bad <- fault ;;
              if bad then ret (Err ErrFault) else ret (run_read st bound view)
          end
      end
  | Some (None, st) =>
      match convert_args args with
      | Err e => ret (Err e)
      | Ok bound =>
          bad <- fault ;;
          if bad then ret (Err ErrFault) else
          content <- get rows ;;
          ret (run_read st bound content)
      end
  end.

(** [stmt.QueryRow(args...)]: a [*sql.Row], which holds the error, if any,
    until it is scanned. *)
Definition QueryRow (h : nat) (args : list value) : St (res ResultSet) :=
  Query h args.

(** [res.LastInsertId()]. *)
Definition LastInsertId (result : Z) : St (res Z) :=
  bad <- fault ;;
  if bad then ret (Err ErrFault) else ret (Ok result).

(** The end of a transaction closes the statements prepared on it. *)
Definition finish (t : nat) : St unit :=
  l <- get stmts ;;
  set_stmts (filter (fun s => negb (owned_by t s)) l) ;;;
  set_open_tx None.

(** [tx.Commit()]. *)
Definition Commit (t : nat) : St (option error) :=
  emit (EvCommit t) ;;;
  v <- get (tx_view t) ;;
  match v with
  | None => ret (Some ErrTxDone)
  | Some view =>
      finish t ;;;
      bad <- fault ;;
      if bad then ret (Some ErrFault) else set_rows view ;;; ret None
  end.

(** [tx.Rollback()]. *)
Definition Rollback (t : nat) : St (option error) :=
  emit (EvRollback t) ;;;
  v <- get (tx_view t) ;;
  match v with
  | None => ret (Some ErrTxDone)
  | Some _ =>
      finish t ;;;
      bad <- fault ;;
      if bad then ret (Some ErrFault) else ret None
  end.

End Driver.

(* ================================================================== *)
(** ** The transaction helpers and the row mapper *)

Module storage.
Import Driver.

(** Modelled from the spec: [storage.TryToBegin] is not among the sources.
    "If existing_handle is non-null, it is returned unchanged with ownership
    flag = borrowed.  If null, a new transaction is opened against the
    Connection Handle and returned with ownership flag = owned." *)
Definition TryToBegin (tx : option nat) : St (res (nat * bool)) :=
  match tx with
  | Some t => ret (Ok (t, false))
  | None =>
      b <- Begin ;;
      match b with
      | Ok t => ret (Ok (t, true))
      | Err e => ret (Err e)
      end
  end.

(** Modelled from the spec: [storage.TryToCommit] is not among the sources.
    "commits the transaction iff owned is true; a no-op otherwise." *)
Definition TryToCommit (tx : nat) (closeTx : bool) : St (option error) :=
  if closeTx then Commit tx else ret None.

(** Modelled from the spec: [storage.TryToRollback] is not among the
    sources.  "rolls back the transaction iff owned is true, and always
    re-raises cause [...] unless rollback itself fails, in which case the
    rollback failure is wrapped around the original cause and both are
    surfaced." *)
Definition TryToRollback (tx : nat) (cause : error) (closeTx : bool) : St error :=
  if closeTx then
    r <- Rollback tx ;;
    match r with
    | Some failure => ret (RollbackFailure failure cause)
    | None => ret cause
    end
  else ret cause.

End storage.

Module mapping.

(** One row of the select list [id, name, url, method, headers]. *)
Definition scan_endpoint (cols : list value) : res Endpoint :=
  match cols with
  | [VInt id; VStr name; VStr url; VStr method; VStr headers] =>
      if (0 <=? id)%Z then Ok (mkEndpoint (Z.to_N id) name url method headers)
      else Err ErrScan
  | _ => Err ErrScan
  end.

(** Modelled from the spec: [mapping.ToEndpoint] is not among the sources.
    The mapper "translates a single result row [...] into a typed entity
    value, and fails explicitly on shape mismatches"; a lookup "fails with
    NotFound if zero rows match". *)
Definition ToEndpoint (row : res ResultSet) : res Endpoint :=
  match row with
  | Err e => Err e
  | Ok [] => Err ErrNoRows
  | Ok (cols :: _) => scan_endpoint cols
  end.

(** Modelled from the spec: [mapping.ToEndpoints] is not among the sources.
    Find "maps every returned row"; [size] only sizes the result. *)
Fixpoint ToEndpoints (rows : ResultSet) (size : Z) : res (list Endpoint) :=
  match rows with
  | [] => Ok []
  | cols :: rows' =>
      match scan_endpoint cols with
      | Err e => Err e
      | Ok e =>
          match ToEndpoints rows' size with
          | Err e' => Err e'
          | Ok es => Ok (e :: es)
          end
      end
  end.

End mapping.

(* ================================================================== *)
(** ** The repository *)

(** What a call of a Go function ends in. *)
Inductive outcome (A : Type) :=
| Return (r : res A)
| Panic (msg : string).
Arguments Return {A} r.
Arguments Panic {A} msg.

Definition nil_dereference := "invalid memory address or nil pointer dereference".

(** [uint64(id)] of an [int64]. *)
Definition uint64_of_int64 (id : Z) : N := Z.to_N (id mod 2 ^ 64).

Module Repo.
Import Driver storage mapping.

Section Operations.

Variable r : SQLiteEndpointRepository.

Definition Get (id : N) : St (res Endpoint) :=
  if (id =? 0)%N then ret (Err (InvalidArgument "id must be greater than 0")) else
  p <- Prepare None (get_text r) ;;
  match p with
  | Err err => ret (Err err)
  | Ok stmt =>
      row <- QueryRow stmt [VUint id] ;;
      let result := ToEndpoint row in
      Close stmt ;;;
      ret result
  end.

(** Line 117 evaluates [query.Take] before [mapping.ToEndpoints] is called:
    with a nil filter it panics while the rows of the query are open, and
    the deferred [stmt.Close()] runs under them. *)
Definition Find (query : option EndpointQuery) : St (outcome (list Endpoint)) :=
  let '(findQuery, args) := find_statement r query in
  emit (EvPrintln findQuery) ;;;
  p <- Prepare None findQuery ;;
  match p with
  | Err err => ret (Return (Err err))
  | Ok stmt =>
      q <- Query stmt args ;;
      match q with
      | Err err => Close stmt ;;; ret (Return (Err err))
      | Ok rows =>
          match query with
          | None => CloseUnderRows stmt ;;; ret (Panic nil_dereference)
          | Some query =>
              let result := ToEndpoints rows (qTake query) in
              Close stmt ;;;
              ret (Return result)
          end
      end
  end.

Definition Count : St (res N) :=
  let queryStmt := count_text r in
  p <- Prepare None queryStmt ;;
  match p with
  | Err err => ret (Err err)
  | Ok stmt =>
      row <- QueryRow stmt [] ;;
      let result :=
        match row with
        | Err err => Err err
        | Ok [] => Err ErrNoRows
        | Ok ([VInt count] :: _) =>
            if (0 <=? count)%Z then Ok (Z.to_N count) else Err ErrScan
        | Ok _ => Err ErrScan
        end in
      Close stmt ;;;
      ret result
  end.

Definition Create (endpoint : option Endpoint) (tx : option nat) : St (res N) :=
  match endpoint with
  | None => ret (Err (InvalidArgument "endpoint missed"))
  | Some endpoint =>
  if (0 <? Id endpoint)%N then ret (Err (InvalidArgument "endpoint already created")) else
  b <- TryToBegin tx ;;
  match b with
  | Err err => ret (Err err)
  | Ok (tx, closeTx) =>
  p <- Prepare (Some tx) (insert_text r) ;;
  match p with
  | Err err => e <- TryToRollback tx err closeTx ;; ret (Err e)
  | Ok stmt =>
  x <- Exec stmt [VStr (Name endpoint); VStr (Url endpoint);
                  VStr (Method endpoint); VStr (Headers endpoint)] ;;
  match x with
  | Err err => e <- TryToRollback tx err closeTx ;; ret (Err e)
  | Ok result =>
  i <- LastInsertId result ;;
  match i with
  | Err err => e <- TryToRollback tx err closeTx ;; ret (Err e)
  | Ok id =>
  c <- TryToCommit tx closeTx ;;
  match c with
  | Some err => ret (Err err)
  | None => ret (Ok (uint64_of_int64 id))
  end end end end end end.

Definition Update (endpoint : option Endpoint) (tx : option nat) : St (option error) :=
  match endpoint with
  | None => ret (Some (InvalidArgument "endpoint missed"))
  | Some endpoint =>
  if (Id endpoint =? 0)%N || (Id endpoint <? 0)%N
  then ret (Some (InvalidArgument "endpoint not created yet")) else
  b <- TryToBegin tx ;;
  match b with
  | Err err => ret (Some err)
  | Ok (tx, closeTx) =>
  p <- Prepare (Some tx) (update_text r) ;;
  match p with
  | Err err => e <- TryToRollback tx err closeTx ;; ret (Some e)
  | Ok stmt =>
  x <- Exec stmt [VStr (Name endpoint); VStr (Url endpoint);
                  VStr (Method endpoint); VStr (Headers endpoint);
                  VUint (Id endpoint)] ;;
  match x with
  | Err err => e <- TryToRollback tx err closeTx ;; ret (Some e)
  | Ok _ => TryToCommit tx closeTx
  end end end end.

Definition Delete (id : N) (tx : option nat) : St (option error) :=
  if (id =? 0)%N then ret (Some (InvalidArgument "id must be greater than 0")) else
  b <- TryToBegin tx ;;
  match b with
  | Err err => ret (Some err)
  | Ok (tx, closeTx) =>
  p <- Prepare (Some tx) (delete_text r) ;;
  match p with
  | Err err => e <- TryToRollback tx err closeTx ;; ret (Some e)
  | Ok stmt =>
  x <- Exec stmt [VUint id] ;;
  match x with
  | Err err => e <- TryToRollback tx err closeTx ;; ret (Some e)
  | Ok _ => TryToCommit tx closeTx
  end end end.

Definition DeleteMany (ids : list N) (tx : option nat) : St (option error) :=
  if (List.length ids =? 0)%nat then ret (Some (InvalidArgument "passed empty list of ids")) else
  b <- TryToBegin tx ;;
  match b with
  | Err err => ret (Some err)
  | Ok (tx, closeTx) =>
  p <- Prepare (Some tx) (delete_many_text r ids) ;;
  match p with
  | Err err => e <- TryToRollback tx err closeTx ;; ret (Some e)
  | Ok stmt =>
  x <- Exec stmt [] ;;
  match x with
  | Err err => e <- TryToRollback tx err closeTx ;; ret (Some e)
  | Ok _ => TryToCommit tx closeTx
  end end end.

End Operations.
End Repo.

(* ================================================================== *)
(** ** The vocabulary of the statements about the repository

    Nothing below is part of the program: these are the notions the
    theorems are stated with. *)

(** The last byte is an asterisk; the first byte is an asterisk. *)
Definition ends_with_star (s : string) : bool :=
  match last_char s with
  | Some c => Ascii.eqb c "*"
  | None => false
  end.

Definition starts_with_star (s : string) : bool :=
  match s with
  | String c _ => Ascii.eqb c "*"
  | EmptyString => false
  end.

(** The filter compiler as the specification words it (section 4.3), to be
    compared with [find_statement]. *)
Module FilterSpec.

Inductive MatchMode := Contains | StartsWith | EndsWith | Exact.

(** The match mode selected by the leading and trailing wildcard markers. *)
Definition mode_of (pattern : string) : MatchMode :=
  match starts_with_star pattern, ends_with_star pattern with
  | true, true => Contains
  | false, true => StartsWith
  | true, false => EndsWith
  | false, false => Exact
  end.

(** The condition of the compiled statement: a pattern-match operator or an
    equality, with one placeholder. *)
Definition condition (m : MatchMode) : string :=
  match m with
  | Exact => " WHERE name = ?"
  | _ => " WHERE name LIKE ?"
  end.

(** The bound parameter: the pattern without its markers, open on the
    sides the mode leaves open. *)
Definition parameter (m : MatchMode) (pattern : string) : string :=
  match m with
  | Contains => "%" ++ remove_char "*" pattern ++ "%"
  | StartsWith => remove_char "*" pattern ++ "%"
  | EndsWith => "%" ++ remove_char "*" pattern
  | Exact => pattern
  end.

Definition where_of (m : MatchMode) : Where :=
  match m with
  | Exact => WNameEq
  | _ => WNameLike
  end.

Definition select_text (tbl : string) : string :=
  "SELECT id, name, url, method, headers FROM " ++ tbl.

Definition window_text (take : Z) : string :=
  if (take >? 0)%Z then " LIMIT ? OFFSET ?" else "".

Definition window_args (take skip : Z) : list value :=
  if (take >? 0)%Z then [VInt take; VInt skip] else [].

End FilterSpec.
Import FilterSpec.

(** The mutating operations, by their arguments. *)
Inductive mutation :=
| DoCreate (endpoint : option Endpoint)
| DoUpdate (endpoint : option Endpoint)
| DoDelete (id : N)
| DoDeleteMany (ids : list N).

(** The [error] of a [(T, error)] result. *)
Definition error_of {A : Type} (x : res A) : option error :=
  match x with
  | Ok _ => None
  | Err e => Some e
  end.

(** A mutating call and the error it returns. *)
Definition mutate (r : SQLiteEndpointRepository) (m : mutation) (tx : option nat)
  : St (option error) :=
  match m with
  | DoCreate endpoint => x <- Repo.Create r endpoint tx ;; ret (error_of x)
  | DoUpdate endpoint => Repo.Update r endpoint tx
  | DoDelete id => Repo.Delete r id tx
  | DoDeleteMany ids => Repo.DeleteMany r ids tx
  end.

(** Counting the calls of one kind in a log. *)
Definition count_events (p : Event -> bool) (l : list Event) : nat :=
  List.length (filter p l).

Definition is_begin (ev : Event) : bool :=
  match ev with EvBegin _ => true | _ => false end.

Definition is_resolution (ev : Event) : bool :=
  match ev with EvCommit _ | EvRollback _ => true | _ => false end.

Definition is_prepare (ev : Event) : bool :=
  match ev with EvPrepare _ _ => true | _ => false end.

Definition is_exec (ev : Event) : bool :=
  match ev with EvExec _ _ => true | _ => false end.

(** Transactions opened, and calls of [Commit] or [Rollback], so far. *)
Definition begun (w : World) : nat := count_events is_begin (log w).
Definition resolved (w : World) : nat := count_events is_resolution (log w).
Definition prepared (w : World) : nat := count_events is_prepare (log w).
Definition executed (w : World) : nat := count_events is_exec (log w).

(** The handle of the open transaction. *)
Definition open_handle (w : World) : option nat := option_map fst (open_tx w).

(** What a call that owns its transaction leaves behind: as many
    resolutions as transactions opened, and no transaction of its own. *)
Definition owner_resolves (w w' : World) : Prop :=
  begun w' + resolved w = resolved w' + begun w /\ open_tx w' = open_tx w.

(** What a call that borrows its transaction leaves behind: no call of
    [Commit] or [Rollback], no transaction opened, the same one open. *)
Definition borrower_leaves_open (w w' : World) : Prop :=
  resolved w' = resolved w /\ begun w' = begun w /\
  open_handle w' = open_handle w.

(** Every operation of the repository, by its arguments, and how a call
    of it ends. *)
Inductive call :=
| CallGet (id : N)
| CallFind (query : option EndpointQuery)
| CallCount
| CallMutate (m : mutation) (tx : option nat).

Inductive status :=
| Succeeded
| FailedWith (e : error)
| Panicked.

Definition status_of {A : Type} (x : res A) : status :=
  match x with
  | Ok _ => Succeeded
  | Err e => FailedWith e
  end.

Definition perform (r : SQLiteEndpointRepository) (c : call) : St status :=
  match c with
  | CallGet id => x <- Repo.Get r id ;; ret (status_of x)
  | CallFind query =>
      x <- Repo.Find r query ;;
      ret (match x with Return y => status_of y | Panic _ => Panicked end)
  | CallCount => x <- Repo.Count r ;; ret (status_of x)
  | CallMutate m tx =>
      x <- mutate r m tx ;;
      ret (match x with None => Succeeded | Some e => FailedWith e end)
  end.

(** The inputs the operations reject. *)
Definition invalid_input (c : call) : bool :=
  match c with
  | CallGet id => (id =? 0)%N
  | CallMutate (DoDelete id) _ => (id =? 0)%N
  | CallMutate (DoCreate None) _ => true
  | CallMutate (DoCreate (Some endpoint)) _ => negb (Id endpoint =? 0)%N
  | CallMutate (DoUpdate None) _ => true
  | CallMutate (DoUpdate (Some endpoint)) _ => (Id endpoint =? 0)%N
  | CallMutate (DoDeleteMany ids) _ =>
      match ids with [] => true | _ :: _ => false end
  | _ => false
  end.

(** The identifier fits a signed 64-bit integer, which is what the driver
    binds. *)
Definition fits_int64 (id : N) : bool := (Z.of_N id <? 2 ^ 63)%Z.

(** No call on the engine fails. *)
Definition quiet (w : World) : Prop := forall n, oracle w n = false.

(** The repository is configured with the table that exists. *)
Definition serves (r : SQLiteEndpointRepository) (w : World) : Prop :=
  table w = tableName r.

(** The entity a row holds. *)
Definition endpoint_of_row (row : Row) : Endpoint :=
  mkEndpoint (r_id row) (r_name row) (r_url row) (r_method row) (r_headers row).

(** The rows a name pattern selects, in the engine's terms. *)
Definition selected (name : string) (content : list Row) : list Row :=
  if String.eqb name "" then content
  else match mode_of name with
       | Exact => filter (fun row => String.eqb (r_name row) name) content
       | m => filter (fun row => Sql.like (parameter m name) (r_name row)) content
       end.

(** The window of a filter, and the rows Find is to return. *)
Definition paginate (take skip : Z) (l : list Row) : list Row :=
  if (take >? 0)%Z then Sql.window take skip l else l.

Definition find_rows (q : EndpointQuery) (content : list Row) : list Row :=
  paginate (qTake q) (qSkip q) (Sql.order_by_id (selected (qName q) content)).

(** Identifier order. *)
Definition id_le (a b : Row) : Prop := (r_id a <= r_id b)%N.

(** The rows as the open transaction has them or, without one, the table. *)
Definition visible (w : World) : list Row :=
  match open_tx w with
  | Some (_, view) => view
  | None => rows w
  end.

(** What a write that returned no error has done, [f] being its effect on
    the rows: given the transaction of the caller, it has left the
    committed table as it was and that transaction open, with the effect
    in its view; without one, it has put the effect into the committed
    table and left no transaction open. *)
Definition written (f : list Row -> list Row) (tx : option nat) (w w' : World) : Prop :=
  match tx with
  | Some t => rows w' = rows w /\ open_tx w' = Some (t, f (visible w))
  | None => rows w' = f (rows w) /\ open_tx w' = None
  end.

(** The transaction a created row waits in has been committed: a call that
    owned it has done so itself, a borrowed one is committed by its owner. *)
Definition committed_after (tx : option nat) (w1 w2 : World) : Prop :=
  match tx with
  | None => w2 = w1
  | Some t => Driver.Commit t w1 = (None, w2)
  end.

(** The statements that were prepared after [w] and are open in [w']. *)
Definition left_open (w w' : World) : list (nat * (option nat * Stmt)) :=
  filter (fun s => next_handle w <=? fst s)%nat (stmts w').

(** Every open statement has a handle that was handed out. *)
Definition handles_known (w : World) : Prop :=
  forall s, In s (stmts w) -> (fst s < next_handle w)%nat.

(** [LIKE] reads no character of [p] specially. *)
Definition literal (p : string) : bool :=
  negb (occurs "%" p) && negb (occurs "_" p).

(** Equal up to ASCII case. *)
Fixpoint same_text (p s : string) : bool :=
  match p, s with
  | EmptyString, EmptyString => true
  | String c p', String d s' => Sql.same_char c d && same_text p' s'
  | _, _ => false
  end.

(** *** Further notions: reads, lookups, sequences *)

(** A call left the table and the transaction as they were, and made no
    call that writes or that begins or ends a transaction. *)
Definition only_read (w w' : World) : Prop :=
  rows w' = rows w /\ open_tx w' = open_tx w /\
  begun w' = begun w /\ resolved w' = resolved w /\ executed w' = executed w.

(** The first row with the identifier. *)
Definition lookup (id : N) (content : list Row) : option Row :=
  find (fun row => (r_id row =? id)%N) content.

(** What a lookup of a row gives the caller. *)
Definition found (row : option Row) : res Endpoint :=
  match row with
  | Some row => Ok (endpoint_of_row row)
  | None => Err ErrNoRows
  end.

(** The table and the oracle of the connection are the same. *)
Definition same_connection (w w' : World) : Prop :=
  table w' = table w /\ oracle w' = oracle w.

(** The row an Update leaves in the place of [row]. *)
Definition updated (e : Endpoint) (row : Row) : Row :=
  if (r_id row =? Id e)%N
  then mkRow (r_key row) (Name e) (Url e) (Method e) (Headers e)
  else row.

(** The identifiers of rows. *)
Definition ids_of (content : list Row) : list N := map r_id content.

(** The row a Create appends. *)
Definition created_row (id : N) (e : Endpoint) : Row :=
  mkRow id (Name e) (Url e) (Method e) (Headers e).

(** A call that returned an error left the committed table as it was. *)
Definition failure_keeps_table (w : World) (x : option error * World) : Prop :=
  fst x <> None -> rows (snd x) = rows w.

(** The committed table is as it was. *)
Definition table_kept (w w' : World) : Prop := rows w' = rows w.

(** Mutations one after the other, all given the same transaction. *)
Fixpoint mutate_all (r : SQLiteEndpointRepository) (ms : list mutation)
    (tx : option nat) : St (list (option error)) :=
  match ms with
  | [] => ret []
  | m :: ms' =>
      e <- mutate r m tx ;;
      es <- mutate_all r ms' tx ;;
      ret (e :: es)
  end.

(** No two rows have the same identifier, in the committed table and in
    what the open transaction sees. *)
Definition unique_ids (w : World) : Prop :=
  NoDup (ids_of (rows w)) /\ NoDup (ids_of (visible w)).

Definition keeps_unique_ids (w w' : World) : Prop :=
  unique_ids w -> unique_ids w'.

(** A call that succeeded met no failure of the engine. *)
Definition success_was_clean (w : World) (x : status * World) : Prop :=
  fst x = Succeeded ->
  forall n, (clock w <= n < clock (snd x))%nat -> oracle w n = false.

(** How often a character occurs. *)
Fixpoint count_char (c : ascii) (s : string) : nat :=
  match s with
  | EmptyString => 0
  | String d s' => (if Ascii.eqb d c then 1 else 0) + count_char c s'
  end.

(** A filter by its three fields. *)
Definition filter_of (name : string) (take skip : Z) : option EndpointQuery :=
  Some (mkEndpointQuery name take skip).

(** The statement a mutation prepares, as the engine reads it. *)
Definition statement_of (m : mutation) : Stmt :=
  match m with
  | DoCreate _ => SInsert
  | DoUpdate _ => SUpdate
  | DoDelete _ => SDeleteById
  | DoDeleteMany ids => SDeleteIn ids
  end.

(** The open statements that were prepared on a transaction. *)
Definition statements_of (t : nat) (w : World) : list (nat * (option nat * Stmt)) :=
  filter (Driver.owned_by t) (stmts w).

(* ================================================================== *)
(** ** Facts about the string functions *)

Section StringFacts.

Lemma append_empty_r (s : string) : s ++ "" = s.
Proof. induction s as [|c s IH]; simpl; [reflexivity | now rewrite IH]. Qed.

Lemma append_assoc (a b c : string) : (a ++ b) ++ c = a ++ (b ++ c).
Proof. induction a as [|x a IH]; simpl; [reflexivity | now rewrite IH]. Qed.

Lemma strip_prefix_app (p s : string) : Sql.strip_prefix p (p ++ s) = Some s.
Proof.
  induction p as [|c p IH]; simpl; [reflexivity|].
  now rewrite Ascii.eqb_refl.
Qed.

Lemma replace_from_star (s : string) :
  replace_from "*" "" 0 s = remove_char "*" s.
Proof.
  induction s as [|c s IH]; [reflexivity|].
  cbn [replace_from remove_char HasPrefix String.length Nat.sub].
  rewrite andb_true_r.
  destruct (Ascii.eqb c "*"); cbn; now rewrite IH.
Qed.

Lemma Replace_star (s : string) : Replace s "*" "" = remove_char "*" s.
Proof. apply replace_from_star. Qed.

Lemma occurs_remove_char (c : ascii) (s : string) :
  occurs c (remove_char c s) = false.
Proof.
  induction s as [|d s IH]; [reflexivity|]. simpl.
  destruct (Ascii.eqb d c) eqn:E; [exact IH|]. simpl. now rewrite E.
Qed.

Lemma remove_char_absent (c : ascii) (s : string) :
  occurs c s = false -> remove_char c s = s.
Proof.
  induction s as [|d s IH]; [reflexivity|]. simpl.
  destruct (Ascii.eqb d c); simpl; [discriminate|].
  intros H. now rewrite IH.
Qed.

End StringFacts.

Section SuffixFacts.

Lemma HasPrefix_star (s : string) : HasPrefix s "*" = starts_with_star s.
Proof.
  destruct s as [|c s]; [reflexivity|].
  cbn [HasPrefix starts_with_star]. apply andb_true_r.
Qed.

Lemma substring_last (c : ascii) (s : string) :
  substring (String.length s) 1 (String c s) =
  match last_char (String c s) with
  | Some d => String d ""
  | None => ""
  end.
Proof.
  revert c. induction s as [|d s IH]; intros c; [reflexivity|].
  change (substring (String.length (String d s)) 1 (String c (String d s)))
    with (substring (String.length s) 1 (String d s)).
  rewrite IH. reflexivity.
Qed.

Lemma HasSuffix_star (s : string) : HasSuffix s "*" = ends_with_star s.
Proof.
  destruct s as [|c s]; [reflexivity|].
  unfold HasSuffix, ends_with_star.
  change (String.length "*") with 1.
  change (String.length (String c s) - 1) with (String.length s - 0).
  rewrite Nat.sub_0_r, substring_last.
  destruct (last_char (String c s)) as [d|]; simpl.
  - destruct (Ascii.eqb d "*"); reflexivity.
  - reflexivity.
Qed.

End SuffixFacts.

(* ================================================================== *)
(** ** The statement Find builds *)

Section FindStatement.

Variable r : SQLiteEndpointRepository.

Lemma select_text_eq : Sprintf endpointSelectQuery [tableName r] = select_text (tableName r).
Proof. unfold select_text. cbn. now rewrite append_empty_r. Qed.

Lemma find_statement_named (q : EndpointQuery) :
  qName q <> "" ->
  find_statement r (Some q) =
    (select_text (tableName r) ++ condition (mode_of (qName q)) ++ " ORDER BY id"
       ++ window_text (qTake q),
     VStr (parameter (mode_of (qName q)) (qName q)) :: window_args (qTake q) (qSkip q)).
Proof.
  intros Hne. unfold find_statement.
  rewrite select_text_eq, HasPrefix_star, HasSuffix_star, Replace_star.
  destruct (String.eqb_spec (qName q) "") as [E|_]; [contradiction|].
  unfold mode_of, window_text, window_args.
  cbn [negb].
  destruct (starts_with_star (qName q)), (ends_with_star (qName q)),
    (qTake q >? 0)%Z; cbn [orb andb condition parameter app];
    rewrite ?append_assoc, ?append_empty_r; reflexivity.
Qed.

Lemma find_statement_unnamed (q : EndpointQuery) :
  qName q = "" ->
  find_statement r (Some q) =
    (select_text (tableName r) ++ " ORDER BY id" ++ window_text (qTake q),
     window_args (qTake q) (qSkip q)).
Proof.
  intros E. unfold find_statement. rewrite select_text_eq, E.
  unfold window_text, window_args. cbn [String.eqb negb].
  destruct (qTake q >? 0)%Z; cbn [app];
    rewrite ?append_assoc, ?append_empty_r; reflexivity.
Qed.

Lemma find_statement_nil :
  find_statement r None = (select_text (tableName r) ++ " ORDER BY id", []).
Proof. unfold find_statement. now rewrite select_text_eq. Qed.

End FindStatement.

(* ================================================================== *)
(** ** The statement texts are statements of the engine *)

Section Texts.

Variable r : SQLiteEndpointRepository.

Lemma get_text_eq : get_text r = select_text (tableName r) ++ " WHERE id=? LIMIT 1".
Proof.
  unfold get_text. rewrite select_text_eq. reflexivity.
Qed.

Lemma count_text_eq : count_text r = "SELECT COUNT(id) from " ++ tableName r.
Proof. unfold count_text. cbn. now rewrite append_empty_r. Qed.

Lemma insert_text_eq :
  insert_text r =
  "INSERT INTO " ++ tableName r ++ " (name, url, method, headers) VALUES (?, ?, ?, ?)".
Proof. reflexivity. Qed.

Lemma update_text_eq :
  update_text r =
  "UPDATE " ++ tableName r ++ " SET name=?, url=?, method=?, headers=? WHERE id=?".
Proof. reflexivity. Qed.

Lemma delete_text_eq : delete_text r = "DELETE FROM " ++ tableName r ++ " WHERE id=?".
Proof.
  unfold delete_text. cbn [Sprintf endpointDeleteQuery].
  now rewrite append_empty_r.
Qed.

Lemma delete_many_text_eq (ids : list N) :
  delete_many_text r ids =
  "DELETE FROM " ++ tableName r ++ " WHERE id IN (" ++ JoinUintSlice ids ", " ++ ")".
Proof.
  unfold delete_many_text. cbn [Sprintf endpointDeleteQuery].
  now rewrite !append_empty_r.
Qed.

End Texts.

Section Compile.

Variable tbl : string.

Lemma after_table_app (k : string -> option Stmt) (tail : string) :
  Sql.after_table tbl k (tbl ++ tail) = k tail.
Proof. unfold Sql.after_table. now rewrite strip_prefix_app. Qed.

Lemma compile_select (tail : string) :
  Sql.compile tbl (select_text tbl ++ tail) = Sql.select_tail tail.
Proof.
  unfold Sql.compile, select_text. rewrite append_assoc, strip_prefix_app.
  apply after_table_app.
Qed.

Lemma compile_count : Sql.compile tbl ("SELECT COUNT(id) from " ++ tbl) = Some SCount.
Proof.
  rewrite <- (append_empty_r tbl) at 2.
  unfold Sql.compile.
  change (Sql.strip_prefix "SELECT id, name, url, method, headers FROM "
            ("SELECT COUNT(id) from " ++ tbl ++ "")) with (@None string).
  rewrite strip_prefix_app. now rewrite after_table_app.
Qed.

Lemma compile_insert :
  Sql.compile tbl
    ("INSERT INTO " ++ tbl ++ " (name, url, method, headers) VALUES (?, ?, ?, ?)")
  = Some SInsert.
Proof.
  unfold Sql.compile.
  change (Sql.strip_prefix "SELECT id, name, url, method, headers FROM "
            ("INSERT INTO " ++ ?x)) with (@None string).
  cbv beta iota.
  change (Sql.strip_prefix "SELECT COUNT(id) from " ("INSERT INTO " ++ ?x))
    with (@None string).
  cbv beta iota.
  rewrite strip_prefix_app. now rewrite after_table_app.
Qed.

Ltac skip_verb verb :=
  match goal with
  | |- context [Sql.strip_prefix verb ?text] =>
      change (Sql.strip_prefix verb text) with (@None string); cbv beta iota
  end.

Lemma compile_update :
  Sql.compile tbl
    ("UPDATE " ++ tbl ++ " SET name=?, url=?, method=?, headers=? WHERE id=?")
  = Some SUpdate.
Proof.
  unfold Sql.compile.
  skip_verb "SELECT id, name, url, method, headers FROM ".
  skip_verb "SELECT COUNT(id) from ".
  skip_verb "INSERT INTO ".
  rewrite strip_prefix_app. now rewrite after_table_app.
Qed.

Lemma compile_delete_tail (tail : string) :
  Sql.compile tbl ("DELETE FROM " ++ tbl ++ tail) = Sql.delete_tail tail.
Proof.
  unfold Sql.compile.
  skip_verb "SELECT id, name, url, method, headers FROM ".
  skip_verb "SELECT COUNT(id) from ".
  skip_verb "INSERT INTO ".
  skip_verb "UPDATE ".
  rewrite strip_prefix_app. apply after_table_app.
Qed.

Lemma compile_delete :
  Sql.compile tbl ("DELETE FROM " ++ tbl ++ " WHERE id=?") = Some SDeleteById.
Proof. now rewrite compile_delete_tail. Qed.

Lemma select_tail_find (m : MatchMode) (take : Z) :
  Sql.select_tail (condition m ++ " ORDER BY id" ++ window_text take)
  = Some (SSelect (where_of m) (take >? 0)%Z).
Proof. unfold window_text. destruct m, (take >? 0)%Z; reflexivity. Qed.

Lemma select_tail_all (take : Z) :
  Sql.select_tail (" ORDER BY id" ++ window_text take)
  = Some (SSelect WNone (take >? 0)%Z).
Proof. unfold window_text. destruct (take >? 0)%Z; reflexivity. Qed.

End Compile.

(** The list of identifiers survives the trip through the statement text. *)
Section IdList.

Lemma id_items_nonempty (s : string) : Sql.id_items s <> Some [].
Proof.
  induction s as [|c s IH]; [discriminate|].
  cbn [Sql.id_items].
  destruct (Ascii.eqb c ")").
  - destruct s; discriminate.
  - destruct (Ascii.eqb c ",").
    + destruct s as [|d s']; [discriminate|].
      destruct (Ascii.eqb d " "); [|discriminate].
      destruct (Sql.id_items s'); discriminate.
    + destruct (Sql.id_items s) as [[|h t]|]; discriminate.
Qed.

Lemma id_items_digits (d : Decimal.uint) (rest : string) :
  Sql.id_items (NilEmpty.string_of_uint d ++ rest) =
  match Sql.id_items rest with
  | Some (h :: t) => Some ((NilEmpty.string_of_uint d ++ h) :: t)
  | _ => None
  end.
Proof.
  induction d as [|d IH|d IH|d IH|d IH|d IH|d IH|d IH|d IH|d IH|d IH];
    cbn [NilEmpty.string_of_uint append];
    try (cbn [Sql.id_items Ascii.eqb Bool.eqb]; rewrite IH;
         destruct (Sql.id_items rest) as [[|h t]|]; reflexivity).
  destruct (Sql.id_items rest) as [[|h t]|] eqn:E; try reflexivity.
  now apply id_items_nonempty in E.
Qed.

Lemma id_items_join (n : N) (ids : list N) :
  Sql.id_items (JoinUintSlice (n :: ids) ", " ++ ")") =
  Some (map FormatUint (n :: ids)).
Proof.
  revert n. induction ids as [|m ids IH]; intros n.
  - unfold JoinUintSlice, Join, FormatUint. cbn [map String.concat].
    rewrite id_items_digits. cbn. now rewrite append_empty_r.
  - unfold JoinUintSlice, Join in *.
    change (String.concat ", " (map FormatUint (n :: m :: ids)))
      with (FormatUint n ++ ", " ++ String.concat ", " (map FormatUint (m :: ids))).
    rewrite !append_assoc. unfold FormatUint at 1. rewrite id_items_digits.
    change (Sql.id_items (", " ++ ?x)) with (option_map (cons "") (Sql.id_items x)).
    rewrite IH. cbn [option_map]. now rewrite append_empty_r.
Qed.

Lemma FormatUint_nonempty (n : N) : FormatUint n <> "".
Proof.
  unfold FormatUint. destruct n as [|p]; [discriminate|].
  cbn [N.to_uint]. pose proof (DecimalPos.Unsigned.to_uint_nonnil p) as H.
  destruct (Pos.to_uint p); [contradiction | discriminate ..].
Qed.

Lemma parse_uint_FormatUint (n : N) : Sql.parse_uint (FormatUint n) = Some n.
Proof.
  unfold Sql.parse_uint. pose proof (FormatUint_nonempty n) as H.
  destruct (FormatUint n) eqn:E; [contradiction|]. rewrite <- E.
  unfold FormatUint. rewrite NilEmpty.usu. cbn [option_map].
  now rewrite DecimalN.Unsigned.of_to.
Qed.

Lemma parse_all_FormatUint (ids : list N) :
  Sql.parse_all (map FormatUint ids) = Some ids.
Proof.
  induction ids as [|n ids IH]; [reflexivity|].
  cbn [map Sql.parse_all]. now rewrite parse_uint_FormatUint, IH.
Qed.

Lemma parse_ids_join (n : N) (ids : list N) :
  Sql.parse_ids (JoinUintSlice (n :: ids) ", " ++ ")") = Some (n :: ids).
Proof.
  unfold Sql.parse_ids. rewrite id_items_join. apply parse_all_FormatUint.
Qed.

Lemma compile_delete_many (tbl : string) (n : N) (ids : list N) :
  Sql.compile tbl
    ("DELETE FROM " ++ tbl ++ " WHERE id IN (" ++ JoinUintSlice (n :: ids) ", " ++ ")")
  = Some (SDeleteIn (n :: ids)).
Proof.
  rewrite compile_delete_tail. unfold Sql.delete_tail.
  change (String.eqb (" WHERE id IN (" ++ ?x) " WHERE id=?") with false.
  cbv iota. rewrite strip_prefix_app, parse_ids_join. reflexivity.
Qed.

End IdList.

(* ================================================================== *)
(** ** Symbolic execution of the operations *)

(** Symbolic execution of an operation: unfold the calls, then split on
    whatever the next step depends on. *)
Ltac unfold_calls :=
  cbv beta iota zeta delta
      [mutate error_of
       Repo.Get Repo.Find Repo.Count Repo.Create Repo.Update Repo.Delete
       Repo.DeleteMany
       storage.TryToBegin storage.TryToCommit storage.TryToRollback
       Driver.Begin Driver.Prepare Driver.Close Driver.CloseUnderRows
       Driver.Exec Driver.Query
       Driver.QueryRow Driver.LastInsertId Driver.finish Driver.Commit
       Driver.Rollback Driver.emit Driver.fault Driver.set_rows
       Driver.set_open_tx Driver.set_stmts Driver.fresh Driver.get
       Driver.tx_view Driver.owned_by bind ret
       table rows open_tx stmts next_handle oracle clock log
       fst snd negb Driver.convert];
  cbn [filter Driver.lookup_stmt Driver.convert_args].

Ltac split_step :=
  match goal with
  | |- context [Nat.eqb ?x ?x] => rewrite (Nat.eqb_refl x)
  | |- context [match ?x with _ => _ end] =>
      lazymatch x with
      | context [match _ with _ => _ end] => fail
      | _ => destruct x eqn:?
      end
  end.

Ltac run := unfold_calls; repeat (split_step; unfold_calls).

(** The same on a connection that is known not to fail ([Hq]). *)
Ltac run_quiet Hq :=
  unfold_calls; repeat (progress rewrite ?Nat.eqb_refl, ?Hq; unfold_calls).

Ltac same_handles :=
  repeat match goal with
         | H : Nat.eqb _ _ = true |- _ => apply Nat.eqb_eq in H; subst
         end.

Ltac finish_counts :=
  same_handles;
  cbv [owner_resolves borrower_leaves_open
       begun resolved prepared executed count_events open_handle];
  cbn [log open_tx filter is_begin is_resolution is_prepare is_exec
       Datatypes.length option_map fst];
  repeat split; try reflexivity; try lia.

(* ================================================================== *)
(** ** Who resolves the transaction *)

Section Ownership.

Variable r : SQLiteEndpointRepository.

Lemma owned_resolved (m : mutation) (w : World) :
  owner_resolves w (snd (mutate r m None w)).
Proof.
  destruct w as [tbl content otx sts nh orc clk lg].
  destruct m as [e|e|id|ids]; run; finish_counts.
Qed.

Lemma borrowed_untouched (m : mutation) (t : nat) (w : World) :
  borrower_leaves_open w (snd (mutate r m (Some t) w)).
Proof.
  destruct w as [tbl content otx sts nh orc clk lg].
  destruct m as [e|e|id|ids]; run; finish_counts.
Qed.

End Ownership.

(** C1: a mutating call (Create, Update, Delete, DeleteMany) that is given a
    transaction never calls Commit or Rollback and leaves that transaction
    open; a call that opens its own transaction resolves it before it
    returns, whatever fails on the way. *)
Theorem transaction_ownership
    (r : SQLiteEndpointRepository) (m : mutation) (tx : option nat) (w : World) :
  let w' := snd (mutate r m tx w) in
  match tx with
  | Some _ => borrower_leaves_open w w'
  | None => owner_resolves w w'
  end.
Proof.
  destruct tx as [t|]; cbv zeta.
  - apply borrowed_untouched.
  - apply owned_resolved.
Qed.

(* ================================================================== *)
(** ** Rejected inputs *)

(** C2: Get(0), Delete(0), Create of nil or of an entity with a non-zero
    identifier, Update of nil or of an entity with identifier 0, and
    DeleteMany of an empty list fail with an InvalidArgument error, and the
    world is the same afterwards: no transaction was opened, no statement
    prepared, no call made on the driver. *)
Theorem invalid_input_rejected
    (r : SQLiteEndpointRepository) (c : call) (w : World) :
  invalid_input c = true ->
  exists msg, perform r c w = (FailedWith (InvalidArgument msg), w).
Proof.
  destruct c as [id| | |[[e|]|[e|]|id|[|n ids]] tx]; cbn [invalid_input];
    try discriminate; intros H.
  - apply N.eqb_eq in H; subst id. eexists; reflexivity.
  - assert ((0 <? Id e)%N = true) as E.
    { apply N.ltb_lt. apply negb_true_iff, N.eqb_neq in H. lia. }
    cbv [perform mutate Repo.Create bind ret error_of]. rewrite E.
    eexists; reflexivity.
  - eexists; reflexivity.
  - cbv [perform mutate Repo.Update bind ret]. rewrite H.
    eexists; reflexivity.
  - eexists; reflexivity.
  - apply N.eqb_eq in H; subst id. eexists; reflexivity.
  - eexists; reflexivity.
Qed.

Lemma invalid_input_rejected_witness :
  exists msg,
    perform (NewSQLiteEndpointRepository "endpoints")
      (CallMutate (DoCreate (Some (mkEndpoint 7 "a" "u" "GET" "{}"))) None)
      (mkWorld "endpoints" [] None [] 0 (fun _ => false) 0 [])
    = (FailedWith (InvalidArgument msg),
       mkWorld "endpoints" [] None [] 0 (fun _ => false) 0 []).
Proof.
  apply (invalid_input_rejected (NewSQLiteEndpointRepository "endpoints")
           (CallMutate (DoCreate (Some (mkEndpoint 7 "a" "u" "GET" "{}"))) None)).
  reflexivity.
Defined.

(* ================================================================== *)
(** ** Find on a healthy connection *)

Section FindHealthy.

Lemma scan_columns (row : Row) :
  mapping.scan_endpoint (Sql.columns row) = Ok (endpoint_of_row row).
Proof.
  unfold mapping.scan_endpoint, Sql.columns, endpoint_of_row.
  destruct (Z.leb_spec 0 (Z.of_N (r_id row))) as [_|H]; [|lia].
  now rewrite N2Z.id.
Qed.

Lemma ToEndpoints_columns (l : list Row) (size : Z) :
  mapping.ToEndpoints (map Sql.columns l) size = Ok (map endpoint_of_row l).
Proof.
  induction l as [|row l IH]; [reflexivity|].
  cbn [map mapping.ToEndpoints]. now rewrite scan_columns, IH.
Qed.

Lemma run_read_named (name : string) (take skip : Z) (content : list Row) :
  name <> "" ->
  Engine.run_read (SSelect (where_of (mode_of name)) (take >? 0)%Z)
    (VStr (parameter (mode_of name) name) :: window_args take skip) content
  = Ok (map Sql.columns
          (paginate take skip (Sql.order_by_id (selected name content)))).
Proof.
  intros Hne. unfold selected, paginate, window_args.
  destruct (String.eqb_spec name "") as [E|_]; [contradiction|].
  destruct (mode_of name), (take >? 0)%Z; reflexivity.
Qed.

Lemma run_read_unnamed (take skip : Z) (content : list Row) :
  Engine.run_read (SSelect WNone (take >? 0)%Z) (window_args take skip) content
  = Ok (map Sql.columns (paginate take skip (Sql.order_by_id content))).
Proof.
  unfold paginate, window_args. destruct (take >? 0)%Z; reflexivity.
Qed.

Lemma convert_window_args (take skip : Z) :
  Driver.convert_args (window_args take skip) = Ok (window_args take skip).
Proof. unfold window_args. destruct (take >? 0)%Z; reflexivity. Qed.

Variable r : SQLiteEndpointRepository.

Lemma Find_healthy (q : EndpointQuery) (w : World) :
  serves r w -> quiet w ->
  fst (Repo.Find r (Some q) w)
  = Return (Ok (map endpoint_of_row (find_rows q (rows w)))).
Proof.
  destruct w as [tbl content otx sts nh orc clk lg].
  unfold serves, quiet; cbn [table oracle]; intros -> Hq.
  unfold Repo.Find, find_rows.
  destruct (String.eqb_spec (qName q) "") as [E|E].
  - rewrite (find_statement_unnamed r q E).
    run_quiet Hq. rewrite compile_select, select_tail_all.
    run_quiet Hq. rewrite convert_window_args.
    run_quiet Hq. rewrite run_read_unnamed, ToEndpoints_columns.
    unfold selected. now rewrite E.
  - rewrite (find_statement_named r q E).
    run_quiet Hq. rewrite compile_select, select_tail_find.
    run_quiet Hq. fold (Driver.convert_args (window_args (qTake q) (qSkip q))).
    rewrite convert_window_args.
    run_quiet Hq. rewrite (run_read_named _ _ _ _ E).
    now rewrite ToEndpoints_columns.
Qed.

End FindHealthy.

(* ================================================================== *)
(** ** The filter compiler *)

Section FilterCompiler.

Lemma occurs_app (c : ascii) (a b : string) :
  occurs c (a ++ b) = occurs c a || occurs c b.
Proof.
  induction a as [|d a IH]; [reflexivity|].
  cbn [append occurs]. now rewrite IH, orb_assoc.
Qed.

End FilterCompiler.

(** C3: for a non-empty name pattern, the leading and trailing markers
    select the mode: both a substring match, only a trailing one a prefix
    match, only a leading one a suffix match, none an equality.  The
    statement text is fixed by the mode and the window alone; the pattern,
    without its markers, is the first bound parameter, and the engine reads
    the text as the statement of that mode. *)
Theorem name_pattern_match_modes (r : SQLiteEndpointRepository) (q : EndpointQuery) :
  qName q <> "" ->
  let mode :=
    match HasPrefix (qName q) "*", HasSuffix (qName q) "*" with
    | true, true => Contains
    | false, true => StartsWith
    | true, false => EndsWith
    | false, false => Exact
    end in
  let text := fst (find_statement r (Some q)) in
  let args := snd (find_statement r (Some q)) in
  text = select_text (tableName r) ++ condition mode ++ " ORDER BY id"
           ++ window_text (qTake q) /\
  args = VStr (parameter mode (qName q)) :: window_args (qTake q) (qSkip q) /\
  Sql.compile (tableName r) text = Some (SSelect (where_of mode) (qTake q >? 0)%Z).
Proof.
  intros Hne. cbv zeta.
  rewrite (find_statement_named r q Hne), HasPrefix_star, HasSuffix_star.
  fold (mode_of (qName q)). cbn [fst snd].
  repeat split. rewrite compile_select. apply select_tail_find.
Qed.

Lemma name_pattern_match_modes_witness :
  "*foo*" <> "" /\
  fst (find_statement (NewSQLiteEndpointRepository "endpoints")
         (Some (mkEndpointQuery "*foo*" 2 1)))
  = "SELECT id, name, url, method, headers FROM endpoints WHERE name LIKE ? ORDER BY id LIMIT ? OFFSET ?" /\
  snd (find_statement (NewSQLiteEndpointRepository "endpoints")
         (Some (mkEndpointQuery "*foo*" 2 1)))
  = [VStr "%foo%"; VInt 2; VInt 1].
Proof.
  assert ("*foo*" <> "") as H by discriminate.
  split; [exact H|].
  destruct (name_pattern_match_modes (NewSQLiteEndpointRepository "endpoints")
              (mkEndpointQuery "*foo*" 2 1) H) as (Ht & Ha & _).
  split; [exact Ht | exact Ha].
Defined.

(** C10: when the pattern has a leading or a trailing asterisk, the bound
    parameter is the pattern with every asterisk removed, interior ones
    too, between the percent signs of the mode; when it has neither, the
    statement is an equality and the parameter is the pattern as it is. *)
Theorem asterisks_in_pattern (r : SQLiteEndpointRepository) (q : EndpointQuery) :
  qName q <> "" ->
  let text := fst (find_statement r (Some q)) in
  let args := snd (find_statement r (Some q)) in
  if HasPrefix (qName q) "*" || HasSuffix (qName q) "*" then
    exists before after,
      hd_error args = Some (VStr (before ++ remove_char "*" (qName q) ++ after)) /\
      occurs "*" (before ++ remove_char "*" (qName q) ++ after) = false /\
      text = select_text (tableName r) ++ " WHERE name LIKE ? ORDER BY id"
               ++ window_text (qTake q)
  else
    hd_error args = Some (VStr (qName q)) /\
    text = select_text (tableName r) ++ " WHERE name = ? ORDER BY id"
             ++ window_text (qTake q).
Proof.
  intros Hne. cbv zeta.
  rewrite (find_statement_named r q Hne), HasPrefix_star, HasSuffix_star.
  unfold mode_of. cbn [fst snd hd_error].
  destruct (starts_with_star (qName q)), (ends_with_star (qName q));
    cbn [orb parameter condition].
  - exists "%", "%". repeat split.
    now rewrite !occurs_app, occurs_remove_char.
  - exists "%", "". rewrite append_empty_r. repeat split.
    now rewrite !occurs_app, occurs_remove_char.
  - exists "", "%". repeat split.
    change ("" ++ ?x) with x. now rewrite !occurs_app, occurs_remove_char.
  - split; reflexivity.
Qed.

Lemma asterisks_in_pattern_witness :
  hd_error (snd (find_statement (NewSQLiteEndpointRepository "endpoints")
              (Some (mkEndpointQuery "a*b" 0 0)))) = Some (VStr "a*b") /\
  exists before after,
    hd_error (snd (find_statement (NewSQLiteEndpointRepository "endpoints")
                (Some (mkEndpointQuery "a*b*" 0 0))))
    = Some (VStr (before ++ "ab" ++ after)).
Proof.
  split.
  - destruct (asterisks_in_pattern (NewSQLiteEndpointRepository "endpoints")
                (mkEndpointQuery "a*b" 0 0)) as (Ha & _); [discriminate|].
    exact Ha.
  - destruct (asterisks_in_pattern (NewSQLiteEndpointRepository "endpoints")
                (mkEndpointQuery "a*b*" 0 0)) as (b & a & Ha & _); [discriminate|].
    exists b, a. exact Ha.
Defined.

(* ================================================================== *)
(** ** ORDER BY and the window *)

Section Ordering.

Lemma insert_sorted_perm (row : Row) (l : list Row) :
  Permutation (row :: l) (Sql.insert_sorted row l).
Proof.
  induction l as [|x l IH]; cbn [Sql.insert_sorted]; [reflexivity|].
  destruct (r_id row <? r_id x)%N; [reflexivity|].
  rewrite perm_swap. now apply perm_skip.
Qed.

Lemma order_by_id_perm (l : list Row) : Permutation l (Sql.order_by_id l).
Proof.
  induction l as [|x l IH]; [reflexivity|].
  unfold Sql.order_by_id in *. cbn [fold_right].
  rewrite <- insert_sorted_perm. now apply perm_skip.
Qed.

Lemma insert_sorted_hd (row x : Row) (l : list Row) :
  id_le x row -> HdRel id_le x l -> HdRel id_le x (Sql.insert_sorted row l).
Proof.
  intros Hx Hl. destruct l as [|y l]; cbn [Sql.insert_sorted].
  - now constructor.
  - destruct (r_id row <? r_id y)%N; constructor; [exact Hx|].
    now inversion Hl.
Qed.

Lemma insert_sorted_sorted (row : Row) (l : list Row) :
  Sorted id_le l -> Sorted id_le (Sql.insert_sorted row l).
Proof.
  induction l as [|x l IH]; intros Hs; cbn [Sql.insert_sorted].
  - repeat constructor.
  - inversion Hs as [|? ? Hl Hhd]; subst.
    destruct (N.ltb_spec (r_id row) (r_id x)) as [Hlt|Hge].
    + constructor; [exact Hs|]. constructor. unfold id_le. lia.
    + constructor; [now apply IH|]. now apply insert_sorted_hd.
Qed.

Lemma order_by_id_sorted (l : list Row) : Sorted id_le (Sql.order_by_id l).
Proof.
  induction l as [|x l IH]; [constructor|].
  unfold Sql.order_by_id in *. cbn [fold_right].
  now apply insert_sorted_sorted.
Qed.

Lemma window_length (take skip : Z) (l : list Row) :
  (0 < take)%Z -> (Z.of_nat (List.length (Sql.window take skip l)) <= take)%Z.
Proof.
  intros H. unfold Sql.window.
  destruct (Z.ltb_spec take 0) as [?|_]; [lia|].
  rewrite length_firstn. lia.
Qed.

End Ordering.

(** C5: with a take-count above 0 the statement of the same filter gets a
    window bound to the take-count and the skip-offset, and Find returns
    the rows of that window, at most take-count of them; with a take-count
    of 0 or less there is no window, the skip-offset is bound nowhere, and
    Find returns every selected row. *)
Theorem pagination_window
    (r : SQLiteEndpointRepository) (q : EndpointQuery) (w : World) :
  serves r w -> quiet w ->
  let unwindowed := find_statement r (Some (mkEndpointQuery (qName q) 0 0)) in
  let matching := Sql.order_by_id (selected (qName q) (rows w)) in
  if (qTake q >? 0)%Z then
    find_statement r (Some q)
    = (fst unwindowed ++ " LIMIT ? OFFSET ?",
       (snd unwindowed ++ [VInt (qTake q); VInt (qSkip q)])%list) /\
    exists es,
      fst (Repo.Find r (Some q) w) = Return (Ok es) /\
      es = map endpoint_of_row
             (firstn (Z.to_nat (qTake q)) (skipn (Z.to_nat (qSkip q)) matching)) /\
      (Z.of_nat (List.length es) <= qTake q)%Z
  else
    find_statement r (Some q) = unwindowed /\
    fst (Repo.Find r (Some q) w) = Return (Ok (map endpoint_of_row matching)).
Proof.
  intros Hs Hq. cbv zeta. rewrite (Find_healthy r q w Hs Hq).
  unfold find_rows, paginate.
  assert (find_statement r (Some q)
          = (fst (find_statement r (Some (mkEndpointQuery (qName q) 0 0)))
               ++ window_text (qTake q),
             (snd (find_statement r (Some (mkEndpointQuery (qName q) 0 0)))
                ++ window_args (qTake q) (qSkip q))%list)) as ->.
  { destruct (String.eqb_spec (qName q) "") as [E|E].
    - rewrite (find_statement_unnamed r q E).
      rewrite (find_statement_unnamed r (mkEndpointQuery (qName q) 0 0) E).
      cbn [fst snd qTake qSkip window_text window_args Z.gtb Z.compare app].
      now rewrite !append_empty_r, !append_assoc.
    - rewrite (find_statement_named r q E).
      rewrite (find_statement_named r (mkEndpointQuery (qName q) 0 0) E).
      cbn [fst snd qName qTake qSkip window_text window_args Z.gtb Z.compare app].
      now rewrite !append_empty_r, !append_assoc. }
  unfold window_text, window_args.
  destruct (Z.gtb_spec (qTake q) 0) as [Hpos|Hnon].
  - split; [reflexivity|]. eexists. split; [reflexivity|].
    unfold Sql.window. destruct (Z.ltb_spec (qTake q) 0) as [?|_]; [lia|].
    split; [reflexivity|].
    rewrite length_map, length_firstn. lia.
  - split; [|reflexivity].
    rewrite append_empty_r, app_nil_r. now destruct (find_statement _ _).
Qed.

Lemma pagination_window_witness :
  fst (Repo.Find (NewSQLiteEndpointRepository "endpoints")
         (Some (mkEndpointQuery "" 2 1))
         (mkWorld "endpoints"
            [mkRow 3 "c" "u" "GET" "{}"; mkRow 1 "a" "u" "GET" "{}";
             mkRow 2 "b" "u" "GET" "{}"; mkRow 4 "d" "u" "GET" "{}"]
            None [] 0 (fun _ => false) 0 []))
  = Return (Ok [mkEndpoint 2 "b" "u" "GET" "{}"; mkEndpoint 3 "c" "u" "GET" "{}"]).
Proof.
  destruct (pagination_window (NewSQLiteEndpointRepository "endpoints")
              (mkEndpointQuery "" 2 1)
              (mkWorld "endpoints"
                 [mkRow 3 "c" "u" "GET" "{}"; mkRow 1 "a" "u" "GET" "{}";
                  mkRow 2 "b" "u" "GET" "{}"; mkRow 4 "d" "u" "GET" "{}"]
                 None [] 0 (fun _ => false) 0 []))
    as (_ & es & Hf & He & _).
  - reflexivity.
  - intros n. reflexivity.
  - rewrite Hf, He. reflexivity.
Defined.

(** C4: on a healthy connection Find with a nil filter prepares and runs
    the statement that selects every row in identifier order, and then
    panics on the nil filter instead of returning the rows. *)
Theorem Find_nil_filter_panics (r : SQLiteEndpointRepository) (w : World) :
  serves r w -> quiet w ->
  find_statement r None
  = ("SELECT id, name, url, method, headers FROM " ++ tableName r ++ " ORDER BY id", [])
  /\ fst (Repo.Find r None w) = Panic nil_dereference.
Proof.
  destruct w as [tbl content otx sts nh orc clk lg].
  unfold serves, quiet; cbn [table oracle]; intros -> Hq.
  rewrite find_statement_nil. split.
  - unfold select_text. now rewrite append_assoc.
  - unfold Repo.Find. rewrite find_statement_nil.
    run_quiet Hq.
    rewrite (compile_select (tableName r) " ORDER BY id").
    change (Sql.select_tail " ORDER BY id") with (Some (SSelect WNone false)).
    run_quiet Hq. reflexivity.
Qed.

Lemma Find_nil_filter_panics_witness :
  fst (Repo.Find (NewSQLiteEndpointRepository "endpoints") None
         (mkWorld "endpoints" [mkRow 1 "a" "u" "GET" "{}"] None [] 0
            (fun _ => false) 0 []))
  = Panic nil_dereference.
Proof.
  apply (Find_nil_filter_panics (NewSQLiteEndpointRepository "endpoints")
           (mkWorld "endpoints" [mkRow 1 "a" "u" "GET" "{}"] None [] 0
              (fun _ => false) 0 [])).
  - reflexivity.
  - intros n. reflexivity.
Defined.

(** With a filter that names nothing and sets no window, Find returns every
    row of the table in identifier order; an empty table gives an empty
    sequence. *)
Lemma Find_without_name_returns_all
    (r : SQLiteEndpointRepository) (q : EndpointQuery) (w : World) :
  serves r w -> quiet w -> qName q = "" -> (qTake q <= 0)%Z ->
  exists l,
    fst (Repo.Find r (Some q) w) = Return (Ok (map endpoint_of_row l)) /\
    Permutation (rows w) l /\ Sorted id_le l.
Proof.
  intros Hs Hq Hn Ht. exists (Sql.order_by_id (rows w)).
  rewrite (Find_healthy r q w Hs Hq). unfold find_rows, paginate, selected.
  rewrite Hn. destruct (Z.gtb_spec (qTake q) 0) as [?|_]; [lia|].
  repeat split; [apply order_by_id_perm | apply order_by_id_sorted].
Qed.

(* ================================================================== *)
(** ** The mutations on a healthy connection *)

Section RowFacts.

Lemma r_id_fits (row : Row) : (Z.of_N (r_id row) < 2 ^ 63)%Z.
Proof.
  unfold r_id.
  assert (r_key row mod 2 ^ 63 < 2 ^ 63)%N as H by (apply N.mod_lt; discriminate).
  apply N2Z.inj_lt in H. exact H.
Qed.

Lemma r_id_new (id : N) (name url method headers : string) :
  (Z.of_N id < 2 ^ 63)%Z -> r_id (mkRow id name url method headers) = id.
Proof.
  intros H. unfold r_id. cbn [r_key]. apply N.mod_small.
  apply N2Z.inj_lt. exact H.
Qed.

Lemma fits_int64_lt (id : N) : fits_int64 id = true <-> (Z.of_N id < 2 ^ 63)%Z.
Proof. apply Z.ltb_lt. Qed.

Lemma unfit_has_no_row (id : N) (row : Row) :
  fits_int64 id = false -> (r_id row =? id)%N = false.
Proof.
  unfold fits_int64. intros H. apply Z.ltb_ge in H.
  pose proof (r_id_fits row). apply N.eqb_neq. intros E. subst id. lia.
Qed.

Lemma open_tx_visible (t : nat) (w : World) :
  open_handle w = Some t -> open_tx w = Some (t, visible w).
Proof.
  unfold open_handle, visible. destruct (open_tx w) as [[t' view]|]; cbn; [|discriminate].
  now intros [= ->].
Qed.

Lemma no_tx_visible (w : World) : open_tx w = None -> visible w = rows w.
Proof. unfold visible. now intros ->. Qed.

Lemma map_set_columns_absent (name url method headers : string) (id : Z)
    (l : list Row) :
  existsb (Sql.has_id id) l = false ->
  map (Engine.set_columns name url method headers id) l = l.
Proof.
  induction l as [|row l IH]; [reflexivity|].
  cbn [existsb map]. intros H. apply orb_false_iff in H as [Hrow Hl].
  unfold Engine.set_columns at 1. now rewrite Hrow, IH.
Qed.

Lemma max_id_bound (l : list Row) (row : Row) :
  In row l -> (r_id row <= Sql.max_id l)%N.
Proof.
  induction l as [|x l IH]; [contradiction|].
  cbn [In Sql.max_id fold_right]. fold (Sql.max_id l).
  intros [->|H]; [lia|]. specialize (IH H). lia.
Qed.

Lemma filter_fresh_id (l : list Row) :
  filter (Sql.has_id (Z.of_N (N.succ (Sql.max_id l)))) l = [].
Proof.
  assert (forall l' : list Row,
            (forall row, In row l' -> (r_id row <= Sql.max_id l)%N) ->
            filter (Sql.has_id (Z.of_N (N.succ (Sql.max_id l)))) l' = []) as H.
  { induction l' as [|x l' IH]; [reflexivity|]. intros Hb.
    cbn [filter]. unfold Sql.has_id at 1.
    pose proof (Hb x (or_introl eq_refl)) as Hx.
    destruct (Z.eqb_spec (Z.of_N (r_id x)) (Z.of_N (N.succ (Sql.max_id l))));
      [lia|].
    apply IH. intros row Hrow. apply Hb. now right. }
  apply H. intros row. apply max_id_bound.
Qed.

Lemma uint64_of_small (id : N) :
  (Z.of_N id < 2 ^ 63)%Z -> uint64_of_int64 (Z.of_N id) = id.
Proof.
  intros H. unfold uint64_of_int64.
  rewrite Z.mod_small by lia. apply N2Z.id.
Qed.

Lemma in_ids_spec (ids : list N) (row : Row) :
  Sql.in_ids ids row = true <-> In (r_id row) ids.
Proof.
  unfold Sql.in_ids. rewrite existsb_exists. split.
  - intros (x & Hx & E). apply N.eqb_eq in E. now subst.
  - intros H. exists (r_id row). split; [exact H | apply N.eqb_refl].
Qed.

End RowFacts.

Section HealthyMutations.

Variable r : SQLiteEndpointRepository.

Lemma compile_insert_text : Sql.compile (tableName r) (insert_text r) = Some SInsert.
Proof. rewrite insert_text_eq. apply compile_insert. Qed.

Lemma compile_update_text : Sql.compile (tableName r) (update_text r) = Some SUpdate.
Proof. rewrite update_text_eq. apply compile_update. Qed.

Lemma compile_delete_text : Sql.compile (tableName r) (delete_text r) = Some SDeleteById.
Proof. rewrite delete_text_eq. apply compile_delete. Qed.

Lemma compile_get_text : Sql.compile (tableName r) (get_text r) = Some SSelectById.
Proof. rewrite get_text_eq, compile_select. reflexivity. Qed.

Lemma compile_count_text : Sql.compile (tableName r) (count_text r) = Some SCount.
Proof. rewrite count_text_eq. apply compile_count. Qed.

Lemma compile_delete_many_text (ids : list N) :
  ids <> [] ->
  Sql.compile (tableName r) (delete_many_text r ids) = Some (SDeleteIn ids).
Proof.
  destruct ids as [|n ids]; [contradiction|]. intros _.
  rewrite delete_many_text_eq. apply compile_delete_many.
Qed.

Lemma Update_healthy (e : Endpoint) (tx : option nat) (w : World) :
  Id e <> 0%N -> fits_int64 (Id e) = true ->
  serves r w -> quiet w -> open_handle w = tx ->
  exists w',
    Repo.Update r (Some e) tx w = (None, w') /\
    written (map (Engine.set_columns (Name e) (Url e) (Method e) (Headers e)
                    (Z.of_N (Id e)))) tx w w' /\
    prepared w' = S (prepared w) /\ executed w' = S (executed w).
Proof.
  destruct w as [tbl content otx sts nh orc clk lg].
  unfold serves, quiet, open_handle, written, visible; cbn [table oracle open_tx rows].
  intros Hid Hfit -> Hq <-. unfold fits_int64 in Hfit.
  unfold Repo.Update.
  assert (((Id e =? 0)%N || (Id e <? 0)%N) = false) as ->.
  { apply orb_false_iff. split; [now apply N.eqb_neq | apply N.ltb_ge; lia]. }
  destruct otx as [[t view]|]; cbn [option_map fst];
    run_quiet Hq; rewrite compile_update_text; run_quiet Hq;
    rewrite Hfit; run_quiet Hq;
    cbn [Engine.run_write]; run_quiet Hq;
    eexists; (split; [reflexivity|]); cbn [rows open_tx]; finish_counts.
Qed.

(** An identifier of 2^63 or more is refused when it is bound: the Update
    returns the conversion error, after the rollback of the transaction it
    opened, and nothing has changed. *)
Lemma Update_unfit (e : Endpoint) (tx : option nat) (w : World) :
  Id e <> 0%N -> fits_int64 (Id e) = false ->
  serves r w -> quiet w -> open_handle w = tx ->
  exists w',
    Repo.Update r (Some e) tx w = (Some ErrConvert, w') /\
    rows w' = rows w /\ open_tx w' = open_tx w.
Proof.
  destruct w as [tbl content otx sts nh orc clk lg].
  unfold serves, quiet, open_handle, fits_int64; cbn [table oracle open_tx rows].
  intros Hid Hfit -> Hq <-.
  unfold Repo.Update.
  assert (((Id e =? 0)%N || (Id e <? 0)%N) = false) as ->.
  { apply orb_false_iff. split; [now apply N.eqb_neq | apply N.ltb_ge; lia]. }
  destruct otx as [[t view]|]; cbn [option_map fst];
    run_quiet Hq; rewrite compile_update_text; run_quiet Hq;
    rewrite Hfit; run_quiet Hq;
    eexists; (split; [reflexivity|]); cbn [open_tx rows];
    split; reflexivity.
Qed.

Lemma DeleteMany_healthy (ids : list N) (tx : option nat) (w : World) :
  ids <> [] -> serves r w -> quiet w -> open_handle w = tx ->
  exists w',
    Repo.DeleteMany r ids tx w = (None, w') /\
    written (filter (fun row => negb (Sql.in_ids ids row))) tx w w' /\
    prepared w' = S (prepared w) /\ executed w' = S (executed w) /\
    exists t h,
      In (EvPrepare (Some t) (delete_many_text r ids)) (log w') /\
      In (EvExec h []) (log w').
Proof.
  destruct w as [tbl content otx sts nh orc clk lg].
  unfold serves, quiet, open_handle, written, visible; cbn [table oracle open_tx rows].
  intros Hids -> Hq <-.
  unfold Repo.DeleteMany.
  assert ((List.length ids =? 0)%nat = false) as ->.
  { destruct ids; [contradiction | reflexivity]. }
  destruct otx as [[t view]|]; cbn [option_map fst];
    run_quiet Hq; rewrite (compile_delete_many_text ids Hids); run_quiet Hq;
    cbn [Engine.run_write]; run_quiet Hq;
    eexists; (split; [reflexivity|]); cbn [rows open_tx]; finish_counts;
    try (do 2 eexists; split; cbn [In]; eauto 6).
Qed.

Lemma Create_success (e : Endpoint) (tx : option nat) (w : World)
    (id : N) (w1 : World) :
  Id e = 0%N -> serves r w ->
  Repo.Create r (Some e) tx w = (Ok id, w1) ->
  id = N.succ (Sql.max_id (visible w)) /\ (0 < id)%N /\
  (Z.of_N id < 2 ^ 63)%Z /\ table w1 = table w /\
  match tx with
  | Some t =>
      rows w1 = rows w /\
      open_tx w1
      = Some (t, (visible w ++ [mkRow id (Name e) (Url e) (Method e) (Headers e)])%list)
  | None =>
      open_tx w1 = None /\
      rows w1 = (rows w ++ [mkRow id (Name e) (Url e) (Method e) (Headers e)])%list /\
      visible w = rows w
  end.
Proof.
  destruct w as [tbl content otx sts nh orc clk lg].
  unfold serves, visible; cbn [table open_tx]. intros Hid ->.
  unfold Repo.Create. rewrite Hid. change (0 <? 0)%N with false. cbv iota.
  destruct tx as [t|]; run;
    try (intros [= <- <-]);
    repeat match goal with
           | H : Sql.compile _ _ = _ |- _ =>
               rewrite compile_insert_text in H; injection H as <-
           | H : Engine.run_write SInsert _ _ = _ |- _ =>
               cbn [Engine.run_write] in H;
               match type of H with
               | (if ?c then _ else _) = _ =>
                   destruct c eqn:Hsmall;
                   [apply Z.ltb_lt in Hsmall; injection H as <- <-
                   | discriminate H]
               end
           end;
    same_handles; rewrite uint64_of_small by assumption;
    cbn [table open_tx rows]; repeat split; try reflexivity; try congruence; lia.
Qed.

End HealthyMutations.

Section RoundTrip.

Variable r : SQLiteEndpointRepository.

Lemma Get_healthy (id : N) (w : World) :
  id <> 0%N -> serves r w -> quiet w ->
  fst (Repo.Get r id w)
  = if fits_int64 id
    then mapping.ToEndpoint
           (Ok (map Sql.columns (firstn 1 (filter (Sql.has_id (Z.of_N id)) (rows w)))))
    else Err ErrConvert.
Proof.
  destruct w as [tbl content otx sts nh orc clk lg].
  unfold serves, quiet, fits_int64; cbn [table oracle rows]. intros Hid -> Hq.
  unfold Repo.Get. apply N.eqb_neq in Hid. rewrite Hid.
  run_quiet Hq. rewrite compile_get_text. run_quiet Hq.
  destruct (Z.of_N id <? 2 ^ 63)%Z; run_quiet Hq; reflexivity.
Qed.

Lemma Commit_success (t : nat) (view : list Row) (w w' : World) :
  open_tx w = Some (t, view) ->
  Driver.Commit t w = (None, w') ->
  rows w' = view /\ table w' = table w /\ open_tx w' = None.
Proof.
  destruct w as [tbl content otx sts nh orc clk lg]. cbn [open_tx].
  intros ->. unfold_calls. rewrite Nat.eqb_refl. unfold_calls.
  destruct (orc clk); intros [= <-]. repeat split.
Qed.

Lemma Get_created (e : Endpoint) (id : N) (content : list Row) (w : World) :
  id = N.succ (Sql.max_id content) -> (Z.of_N id < 2 ^ 63)%Z ->
  rows w = (content ++ [mkRow id (Name e) (Url e) (Method e) (Headers e)])%list ->
  serves r w -> quiet w ->
  fst (Repo.Get r id w)
  = Ok (mkEndpoint id (Name e) (Url e) (Method e) (Headers e)).
Proof.
  intros Hid Hfit Hrows Hs Hq.
  rewrite (Get_healthy id w) by (try assumption; lia).
  rewrite (proj2 (fits_int64_lt id) Hfit).
  rewrite Hrows, filter_app, Hid, filter_fresh_id. cbn [filter app].
  rewrite <- Hid. unfold Sql.has_id at 1. rewrite (r_id_new _ _ _ _ _ Hfit).
  rewrite Z.eqb_refl. cbn [firstn map mapping.ToEndpoint].
  rewrite scan_columns. unfold endpoint_of_row.
  now rewrite (r_id_new _ _ _ _ _ Hfit).
Qed.

End RoundTrip.

(** C6: a successful Create of an entity with identifier 0 returns an
    identifier above 0, and once the row is committed a Get with that
    identifier returns the name, url, method and headers that were
    created. *)
Theorem Create_then_Get
    (r : SQLiteEndpointRepository) (e : Endpoint) (tx : option nat)
    (w w1 w2 : World) (id : N) :
  Id e = 0%N -> serves r w ->
  Repo.Create r (Some e) tx w = (Ok id, w1) ->
  committed_after tx w1 w2 -> quiet w2 ->
  (0 < id)%N /\
  fst (Repo.Get r id w2) = Ok (mkEndpoint id (Name e) (Url e) (Method e) (Headers e)).
Proof.
  intros Hid Hs Hc Hcommit Hq.
  destruct (Create_success r e tx w id w1 Hid Hs Hc)
    as (Hnew & Hpos & Hfit & Htbl & Htx).
  split; [exact Hpos|].
  destruct tx as [t|]; unfold committed_after in Hcommit.
  - destruct Htx as [_ Htx].
    destruct (Commit_success t _ w1 w2 Htx Hcommit) as (Hrows & Htbl2 & _).
    apply (Get_created r e id (visible w) w2 Hnew Hfit Hrows); [|exact Hq].
    unfold serves in *. congruence.
  - subst w2. destruct Htx as (_ & Hrows & Hvis).
    apply (Get_created r e id (rows w) w1); try assumption.
    + now rewrite <- Hvis.
    + unfold serves in *. congruence.
Qed.

Lemma Create_then_Get_witness :
  let r := NewSQLiteEndpointRepository "endpoints" in
  let w := mkWorld "endpoints"
             [mkRow 2 "b" "u" "GET" "{}"; mkRow 1 "a" "u" "GET" "{}"]
             None [] 0 (fun _ => false) 0 [] in
  let e := mkEndpoint 0 "c" "http://c" "POST" "{}" in
  fst (Repo.Create r (Some e) None w) = Ok 3%N /\
  (0 < 3)%N /\
  fst (Repo.Get r 3 (snd (Repo.Create r (Some e) None w)))
  = Ok (mkEndpoint 3 "c" "http://c" "POST" "{}").
Proof.
  cbv zeta. split; [vm_compute; reflexivity|].
  apply (Create_then_Get (NewSQLiteEndpointRepository "endpoints")
           (mkEndpoint 0 "c" "http://c" "POST" "{}") None
           (mkWorld "endpoints"
              [mkRow 2 "b" "u" "GET" "{}"; mkRow 1 "a" "u" "GET" "{}"]
              None [] 0 (fun _ => false) 0 [])
           (snd (Repo.Create (NewSQLiteEndpointRepository "endpoints")
                   (Some (mkEndpoint 0 "c" "http://c" "POST" "{}")) None
                   (mkWorld "endpoints"
                      [mkRow 2 "b" "u" "GET" "{}"; mkRow 1 "a" "u" "GET" "{}"]
                      None [] 0 (fun _ => false) 0 [])))).
  - reflexivity.
  - reflexivity.
  - vm_compute. reflexivity.
  - reflexivity.
  - intros n. reflexivity.
Defined.

(** The identifier 2^63 is a [uint64] that no row has, and the driver
    refuses to bind it: Update returns the conversion error. *)
Lemma Update_of_missing_row_beyond_int64 :
  let r := NewSQLiteEndpointRepository "endpoints" in
  let w := mkWorld "endpoints"
             [mkRow 2 "b" "u" "GET" "{}"; mkRow 1 "a" "u" "GET" "{}"]
             None [] 0 (fun _ => false) 0 [] in
  let e := mkEndpoint 9223372036854775808 "z" "u" "GET" "{}" in
  Id e <> 0%N /\ serves r w /\ quiet w /\ open_handle w = None /\
  existsb (Sql.has_id (Z.of_N (Id e))) (visible w) = false /\
  fst (Repo.Update r (Some e) None w) = Some ErrConvert.
Proof.
  cbv zeta. split; [discriminate|]. split; [reflexivity|].
  split; [intros n; reflexivity|]. split; [reflexivity|].
  split; vm_compute; reflexivity.
Qed.

(** C7: an Update of an entity whose identifier is not 0 and matches no row
    changes no row, neither of the table nor of the open transaction, and
    a call that opened its own transaction has ended it.  It returns no
    error when the identifier is below 2^63, and the conversion error of
    the driver when it is 2^63 or more. *)
Theorem Update_of_missing_row_is_noop
    (r : SQLiteEndpointRepository) (e : Endpoint) (tx : option nat) (w : World) :
  Id e <> 0%N -> serves r w -> quiet w -> open_handle w = tx ->
  existsb (Sql.has_id (Z.of_N (Id e))) (visible w) = false ->
  exists w',
    Repo.Update r (Some e) tx w
    = (if fits_int64 (Id e) then None else Some ErrConvert, w') /\
    rows w' = rows w /\ open_tx w' = open_tx w.
Proof.
  intros Hid Hs Hq Htx Hmiss.
  destruct (fits_int64 (Id e)) eqn:Hfit;
    [|exact (Update_unfit r e tx w Hid Hfit Hs Hq Htx)].
  destruct (Update_healthy r e tx w Hid Hfit Hs Hq Htx)
    as (w' & Hu & Hw & _).
  exists w'. split; [exact Hu|].
  destruct tx as [t|]; destruct Hw as [Hrows Hopen]; rewrite Hrows, Hopen.
  - split; [reflexivity|].
    rewrite (map_set_columns_absent _ _ _ _ _ _ Hmiss).
    symmetry. now apply open_tx_visible.
  - assert (open_tx w = None) as Hnone.
    { unfold open_handle in Htx. now destruct (open_tx w). }
    rewrite (no_tx_visible w Hnone) in Hmiss.
    split; [now apply map_set_columns_absent | now rewrite Hnone].
Qed.

Lemma Update_of_missing_row_is_noop_witness :
  exists w',
    Repo.Update (NewSQLiteEndpointRepository "endpoints")
      (Some (mkEndpoint 7 "z" "u" "GET" "{}")) None
      (mkWorld "endpoints"
         [mkRow 2 "b" "u" "GET" "{}"; mkRow 1 "a" "u" "GET" "{}"]
         None [] 0 (fun _ => false) 0 [])
    = (None, w') /\
    rows w' = [mkRow 2 "b" "u" "GET" "{}"; mkRow 1 "a" "u" "GET" "{}"] /\
    open_tx w' = None.
Proof.
  apply (Update_of_missing_row_is_noop (NewSQLiteEndpointRepository "endpoints")
           (mkEndpoint 7 "z" "u" "GET" "{}") None
           (mkWorld "endpoints"
              [mkRow 2 "b" "u" "GET" "{}"; mkRow 1 "a" "u" "GET" "{}"]
              None [] 0 (fun _ => false) 0 [])).
  - discriminate.
  - reflexivity.
  - intros n. reflexivity.
  - reflexivity.
  - vm_compute. reflexivity.
Defined.

(** C8: DeleteMany of a non-empty list prepares one statement and executes
    it once; the engine reads its text as the deletion of exactly the
    listed identifiers.  Called without a transaction it has committed
    when it returns: no transaction is open, and the committed table is
    the previous one without the rows with a listed identifier, every
    other row as before and in place.  Given the transaction of the
    caller, it has done the same to the view of that transaction, which
    stays open, and the committed table is as it was. *)
Theorem DeleteMany_single_statement
    (r : SQLiteEndpointRepository) (ids : list N) (tx : option nat) (w : World) :
  ids <> [] -> serves r w -> quiet w -> open_handle w = tx ->
  let remaining := filter (fun row => negb (Sql.in_ids ids row)) in
  exists w',
    Repo.DeleteMany r ids tx w = (None, w') /\
    prepared w' = S (prepared w) /\ executed w' = S (executed w) /\
    (exists t h,
       In (EvPrepare (Some t) (delete_many_text r ids)) (log w') /\
       In (EvExec h []) (log w')) /\
    Sql.compile (table w) (delete_many_text r ids) = Some (SDeleteIn ids) /\
    match tx with
    | None => open_tx w' = None /\ rows w' = remaining (rows w)
    | Some t => open_tx w' = Some (t, remaining (visible w)) /\ rows w' = rows w
    end /\
    (forall content row,
       In row (remaining content) <-> In row content /\ ~ In (r_id row) ids).
Proof.
  intros Hids Hs Hq Htx. cbv zeta.
  destruct (DeleteMany_healthy r ids tx w Hids Hs Hq Htx)
    as (w' & Hd & Hw & Hp & He & Hlog).
  exists w'. split; [exact Hd|]. split; [exact Hp|]. split; [exact He|].
  split; [exact Hlog|]. split; [|split].
  - rewrite Hs. now apply compile_delete_many_text.
  - destruct tx as [t|]; destruct Hw as [Hrows Hopen]; now split.
  - intros content row. rewrite filter_In, negb_true_iff. split.
    + intros [Hin Hnot]. split; [exact Hin|].
      intros Hlisted. apply in_ids_spec in Hlisted. congruence.
    + intros [Hin Hnot]. split; [exact Hin|].
      destruct (Sql.in_ids ids row) eqn:E; [|reflexivity].
      apply in_ids_spec in E. contradiction.
Qed.

Lemma DeleteMany_single_statement_witness :
  exists w',
    Repo.DeleteMany (NewSQLiteEndpointRepository "endpoints") [1; 3; 12]%N None
      (mkWorld "endpoints"
         [mkRow 3 "c" "u" "GET" "{}"; mkRow 1 "a" "u" "GET" "{}";
          mkRow 2 "b" "u" "GET" "{}"]
         None [] 0 (fun _ => false) 0 [])
    = (None, w') /\
    open_tx w' = None /\
    rows w' = [mkRow 2 "b" "u" "GET" "{}"].
Proof.
  destruct (DeleteMany_single_statement (NewSQLiteEndpointRepository "endpoints")
              [1; 3; 12]%N None
              (mkWorld "endpoints"
                 [mkRow 3 "c" "u" "GET" "{}"; mkRow 1 "a" "u" "GET" "{}";
                  mkRow 2 "b" "u" "GET" "{}"]
                 None [] 0 (fun _ => false) 0 []))
    as (w' & Hd & _ & _ & _ & _ & (Hopen & Hrows) & _).
  - discriminate.
  - reflexivity.
  - intros n. reflexivity.
  - reflexivity.
  - exists w'. split; [exact Hd|]. split; [exact Hopen|].
    rewrite Hrows. vm_compute. reflexivity.
Defined.

(* ================================================================== *)
(** ** Prepared statements *)

Section Release.

Variable r : SQLiteEndpointRepository.

Lemma known_not_left (nh : nat) (l : list (nat * (option nat * Stmt))) :
  (forall s, In s l -> (fst s < nh)%nat) ->
  filter (fun s => nh <=? fst s)%nat l = [].
Proof.
  induction l as [|s l IH]; [reflexivity|]. intros H. cbn [filter].
  pose proof (H s (or_introl eq_refl)) as Hs.
  destruct (Nat.leb_spec nh (fst s)); [lia|].
  apply IH. intros s' Hs'. apply H. now right.
Qed.

Lemma known_filter_not_left (nh : nat) (p : nat * (option nat * Stmt) -> bool)
    (l : list (nat * (option nat * Stmt))) :
  (forall s, In s l -> (fst s < nh)%nat) ->
  filter (fun s => nh <=? fst s)%nat (filter p l) = [].
Proof.
  intros H. apply known_not_left. intros s Hs.
  apply filter_In in Hs as [Hs _]. now apply H.
Qed.

Ltac finish_release H :=
  cbv [left_open]; cbn [stmts next_handle filter fst];
  first [ exact (known_not_left _ _ H) | exact (known_filter_not_left _ _ _ H) ].

(** The reading operations close what they prepare, on every path on
    which they return. *)
Lemma reads_release (c : call) (w : World) :
  handles_known w ->
  match c with
  | CallMutate _ _ | CallFind None => True
  | _ => left_open w (snd (perform r c w)) = []
  end.
Proof.
  destruct w as [tbl content otx sts nh orc clk lg].
  unfold handles_known; cbn [stmts next_handle]. intros H.
  destruct c as [id|[query|]| |m tx]; [| |exact I| |exact I].
  - cbv [perform]. run; finish_release H.
  - cbv [perform]. destruct (find_statement r (Some query)) as [text args] eqn:E.
    unfold Repo.Find. rewrite E. run; finish_release H.
  - cbv [perform]. run; finish_release H.
Qed.

(** So do the mutations that own their transaction: its end closes the
    statement. *)
Lemma owned_mutations_release (m : mutation) (w : World) :
  handles_known w -> left_open w (snd (mutate r m None w)) = [].
Proof.
  destruct w as [tbl content otx sts nh orc clk lg].
  unfold handles_known; cbn [stmts next_handle]. intros H.
  destruct m as [e|e|id|ids]; run; cbv [left_open];
    cbn [stmts next_handle filter fst];
    rewrite ?Nat.eqb_refl; cbn [negb];
    repeat match goal with
           | |- context [(?n <=? S ?n)%nat] =>
               replace (n <=? S n)%nat with true by (symmetry; apply Nat.leb_le; lia)
           end;
    first [ exact (known_not_left _ _ H) | exact (known_filter_not_left _ _ _ H) ].
Qed.

End Release.

(** C9: Create, Update, Delete and DeleteMany never close the statement
    they prepare.  Called with a transaction of the caller, each of them
    returns without error while its statement is still open. *)
Theorem borrowed_mutations_leave_statement_open :
  let r := NewSQLiteEndpointRepository "endpoints" in
  let w := mkWorld "endpoints" [mkRow 1 "a" "u" "GET" "{}"]
             (Some (0, [mkRow 1 "a" "u" "GET" "{}"])) [] 1 (fun _ => false) 0 [] in
  let after m :=
    (fst (mutate r m (Some 0) w), left_open w (snd (mutate r m (Some 0) w))) in
  after (DoCreate (Some (mkEndpoint 0 "b" "u" "GET" "{}")))
    = (None, [(1, (Some 0, SInsert))]) /\
  after (DoUpdate (Some (mkEndpoint 1 "b" "u" "GET" "{}")))
    = (None, [(1, (Some 0, SUpdate))]) /\
  after (DoDelete 1) = (None, [(1, (Some 0, SDeleteById))]) /\
  after (DoDeleteMany [1%N]) = (None, [(1, (Some 0, SDeleteIn [1%N]))]).
Proof. vm_compute. repeat split. Qed.

(* ================================================================== *)
(** ** What the modes select

    For a pattern that, without its asterisks, has none of the characters
    [LIKE] reads specially, the parameter of each mode selects the names
    that contain, start with or end with the pattern, up to the ASCII case
    folding of [LIKE]. *)

Section LikeFacts.

Lemma like_percent (p s : string) :
  Sql.like ("%" ++ p) s = true <->
  exists a b, s = a ++ b /\ Sql.like p b = true.
Proof.
  change ("%" ++ p) with (String "%" p). cbn [Sql.like Ascii.eqb Bool.eqb].
  induction s as [|d s IH].
  - rewrite orb_false_r. split.
    + intros H. now exists "", "".
    + intros (a & b & E & H). destruct a; [|discriminate].
      cbn in E. now subst b.
  - rewrite orb_true_iff, IH. split.
    + intros [H|(a & b & E & H)].
      * now exists "", (String d s).
      * exists (String d a), b. cbn. now rewrite E.
    + intros (a & b & E & H). destruct a as [|x a].
      * cbn in E. subst b. now left.
      * injection E as -> E. right. now exists a, b.
Qed.

Lemma like_literal_app (p q s : string) :
  literal p = true ->
  Sql.like (p ++ q) s = true <->
  exists b c, s = b ++ c /\ same_text p b = true /\ Sql.like q c = true.
Proof.
  unfold literal. revert s. induction p as [|x p IH]; intros s Hlit.
  - cbn [append]. split.
    + intros H. now exists "", s.
    + intros (b & c & E & Hb & Hc). destruct b; [|discriminate].
      cbn in E. now subst c.
  - cbn [occurs] in Hlit.
    apply andb_true_iff in Hlit as [Hp Hu].
    apply negb_true_iff, orb_false_iff in Hp as [Hxp Hp].
    apply negb_true_iff, orb_false_iff in Hu as [Hxu Hu].
    assert (negb (occurs "%" p) && negb (occurs "_" p) = true) as Hrest
      by now rewrite Hp, Hu.
    cbn [append Sql.like]. rewrite Hxp, Hxu. cbn [orb].
    destruct s as [|d s].
    + split; [discriminate|].
      intros (b & c & E & Hb & _). destruct b; discriminate.
    + rewrite andb_true_iff, (IH s Hrest). split.
      * intros (Hc & b & c & E & Hb & Hq).
        exists (String d b), c. cbn [append same_text].
        now rewrite E, Hc, Hb.
      * intros (b & c & E & Hb & Hq). destruct b as [|y b]; [discriminate|].
        injection E as -> E. cbn [same_text] in Hb.
        apply andb_true_iff in Hb as [Hc Hb].
        split; [exact Hc|]. now exists b, c.
Qed.

Lemma like_anything (s : string) : Sql.like "%" s = true.
Proof. apply (like_percent "" s). now exists s, ""; rewrite append_empty_r. Qed.

Lemma like_nothing (s : string) : Sql.like "" s = true <-> s = "".
Proof. destruct s; cbn; split; congruence. Qed.

(** The three pattern-match modes. *)
Lemma parameter_meaning (name s : string) :
  literal (remove_char "*" name) = true ->
  (Sql.like (parameter Contains name) s = true <->
     exists a b c, s = a ++ b ++ c /\ same_text (remove_char "*" name) b = true) /\
  (Sql.like (parameter StartsWith name) s = true <->
     exists b c, s = b ++ c /\ same_text (remove_char "*" name) b = true) /\
  (Sql.like (parameter EndsWith name) s = true <->
     exists a b, s = a ++ b /\ same_text (remove_char "*" name) b = true).
Proof.
  intros Hlit. cbn [parameter]. repeat split.
  - intros H. apply like_percent in H as (a & t & -> & H).
    apply (like_literal_app _ _ _ Hlit) in H as (b & c & -> & Hb & _).
    now exists a, b, c.
  - intros (a & b & c & -> & Hb). apply like_percent. exists a, (b ++ c).
    split; [reflexivity|]. apply (like_literal_app _ _ _ Hlit).
    exists b, c. split; [reflexivity | split; [exact Hb | apply like_anything]].
  - intros H. apply (like_literal_app _ _ _ Hlit) in H as (b & c & -> & Hb & _).
    now exists b, c.
  - intros (b & c & -> & Hb). apply (like_literal_app _ _ _ Hlit).
    exists b, c. split; [reflexivity | split; [exact Hb | apply like_anything]].
  - intros H. apply like_percent in H as (a & t & -> & H).
    rewrite <- (append_empty_r (remove_char "*" name)) in H.
    apply (like_literal_app _ _ _ Hlit) in H as (b & c & -> & Hb & Hc).
    apply like_nothing in Hc. subst c. rewrite append_empty_r. now exists a, b.
  - intros (a & b & -> & Hb). apply like_percent. exists a, b.
    split; [reflexivity|].
    rewrite <- (append_empty_r (remove_char "*" name)).
    apply (like_literal_app _ _ _ Hlit). exists b, "".
    rewrite append_empty_r. split; [reflexivity | split; [exact Hb | reflexivity]].
Qed.

End LikeFacts.

(* ================================================================== *)
(** ** The reading operations *)

Section Reads.

Variable r : SQLiteEndpointRepository.

Ltac finish_read :=
  cbv [only_read begun resolved prepared executed count_events];
  cbn [log open_tx rows filter is_begin is_resolution is_prepare is_exec
       Datatypes.length];
  repeat split; reflexivity.

(** X1: Get, Find and Count leave the table and the open transaction as they
    are, open and end no transaction and execute nothing, whatever the
    filter is and whatever fails. *)
Theorem reads_only_read (c : call) (w : World) :
  match c with
  | CallMutate _ _ => True
  | _ => only_read w (snd (perform r c w))
  end.
Proof.
  destruct w as [tbl content otx sts nh orc clk lg].
  destruct c as [id|query| |m tx]; [| | |exact I].
  - cbv [perform]. run; finish_read.
  - cbv [perform]. destruct (find_statement r query) as [text args] eqn:E.
    unfold Repo.Find. rewrite E. run; finish_read.
  - cbv [perform]. run; finish_read.
Qed.

Lemma has_id_eqb (id : N) (row : Row) :
  Sql.has_id (Z.of_N id) row = (r_id row =? id)%N.
Proof.
  unfold Sql.has_id.
  destruct (N.eqb_spec (r_id row) id) as [->|H].
  - apply Z.eqb_refl.
  - apply Z.eqb_neq. lia.
Qed.

Lemma first_of_filter (id : N) (l : list Row) :
  firstn 1 (filter (Sql.has_id (Z.of_N id)) l)
  = match lookup id l with Some row => [row] | None => [] end.
Proof.
  unfold lookup. induction l as [|row l IH]; [reflexivity|].
  cbn [filter find]. rewrite has_id_eqb.
  destruct (r_id row =? id)%N; [reflexivity | exact IH].
Qed.

Lemma lookup_some (id : N) (l : list Row) (row : Row) :
  lookup id l = Some row -> In row l /\ r_id row = id.
Proof.
  unfold lookup. intros H. apply find_some in H as [Hin E].
  apply N.eqb_eq in E. now split.
Qed.

Lemma lookup_fits (id : N) (l : list Row) :
  lookup id l <> None -> fits_int64 id = true.
Proof.
  destruct (lookup id l) as [row|] eqn:E; [intros _ | contradiction].
  apply lookup_some in E as [_ <-]. apply fits_int64_lt, r_id_fits.
Qed.

Lemma Get_lookup_healthy (id : N) (w : World) :
  id <> 0%N -> serves r w -> quiet w ->
  fst (Repo.Get r id w)
  = if fits_int64 id then found (lookup id (rows w)) else Err ErrConvert.
Proof.
  intros Hid Hs Hq. rewrite (Get_healthy r id w Hid Hs Hq), first_of_filter.
  destruct (fits_int64 id); [|reflexivity].
  destruct (lookup id (rows w)) as [row|]; [|reflexivity].
  cbn [map mapping.ToEndpoint found]. apply scan_columns.
Qed.

Lemma Count_healthy (w : World) :
  serves r w -> quiet w ->
  fst (Repo.Count r w) = Ok (N.of_nat (List.length (rows w))).
Proof.
  destruct w as [tbl content otx sts nh orc clk lg].
  unfold serves, quiet; cbn [table oracle rows]. intros -> Hq.
  unfold Repo.Count. run_quiet Hq. rewrite compile_count_text. run_quiet Hq.
  cbn [Engine.run_read]. run_quiet Hq.
  destruct (Z.leb_spec 0 (Z.of_nat (List.length content))) as [_|H]; [|lia].
  now rewrite <- Z_nat_N, Nat2Z.id.
Qed.

End Reads.

(** X2: on a connection that does not fail, Get with a non-zero identifier
    below 2^63 returns the first row of the committed table with that
    identifier, and the no-rows error when there is none; with an
    identifier of 2^63 or more it returns the conversion error of the
    driver, whatever the table holds. *)
Theorem Get_is_lookup (r : SQLiteEndpointRepository) (id : N) (w : World) :
  id <> 0%N -> serves r w -> quiet w ->
  fst (Repo.Get r id w)
  = if fits_int64 id then found (lookup id (rows w)) else Err ErrConvert.
Proof. apply Get_lookup_healthy. Qed.

Lemma Get_is_lookup_witness :
  fst (Repo.Get (NewSQLiteEndpointRepository "endpoints") 2
         (mkWorld "endpoints"
            [mkRow 1 "a" "u" "GET" "{}"; mkRow 2 "b" "v" "PUT" "{}"]
            None [] 0 (fun _ => false) 0 []))
  = Ok (mkEndpoint 2 "b" "v" "PUT" "{}") /\
  fst (Repo.Get (NewSQLiteEndpointRepository "endpoints") 5
         (mkWorld "endpoints"
            [mkRow 1 "a" "u" "GET" "{}"; mkRow 2 "b" "v" "PUT" "{}"]
            None [] 0 (fun _ => false) 0 []))
  = Err ErrNoRows /\
  fst (Repo.Get (NewSQLiteEndpointRepository "endpoints") 9223372036854775808
         (mkWorld "endpoints"
            [mkRow 1 "a" "u" "GET" "{}"; mkRow 2 "b" "v" "PUT" "{}"]
            None [] 0 (fun _ => false) 0 []))
  = Err ErrConvert.
Proof.
  split; [|split].
  - rewrite (Get_is_lookup (NewSQLiteEndpointRepository "endpoints") 2
               (mkWorld "endpoints"
                  [mkRow 1 "a" "u" "GET" "{}"; mkRow 2 "b" "v" "PUT" "{}"]
                  None [] 0 (fun _ => false) 0 []));
      [vm_compute; reflexivity | discriminate | reflexivity | intros n; reflexivity].
  - rewrite (Get_is_lookup (NewSQLiteEndpointRepository "endpoints") 5
               (mkWorld "endpoints"
                  [mkRow 1 "a" "u" "GET" "{}"; mkRow 2 "b" "v" "PUT" "{}"]
                  None [] 0 (fun _ => false) 0 []));
      [vm_compute; reflexivity | discriminate | reflexivity | intros n; reflexivity].
  - rewrite (Get_is_lookup (NewSQLiteEndpointRepository "endpoints")
               9223372036854775808
               (mkWorld "endpoints"
                  [mkRow 1 "a" "u" "GET" "{}"; mkRow 2 "b" "v" "PUT" "{}"]
                  None [] 0 (fun _ => false) 0 []));
      [vm_compute; reflexivity | discriminate | reflexivity | intros n; reflexivity].
Defined.

(* ================================================================== *)
(** ** Delete and Update on a healthy connection *)

Section SameConnection.

Variable r : SQLiteEndpointRepository.

Ltac finish_same := cbv [same_connection]; cbn [table oracle]; split; reflexivity.

Lemma perform_same_connection (c : call) (w : World) :
  same_connection w (snd (perform r c w)).
Proof.
  destruct w as [tbl content otx sts nh orc clk lg].
  destruct c as [id|query| |[e|e|id|ids] tx].
  - cbv [perform]. run; finish_same.
  - cbv [perform]. destruct (find_statement r query) as [text args] eqn:E.
    unfold Repo.Find. rewrite E. run; finish_same.
  - cbv [perform]. run; finish_same.
  - cbv [perform]. run; finish_same.
  - cbv [perform]. run; finish_same.
  - cbv [perform]. run; finish_same.
  - cbv [perform]. run; finish_same.
Qed.

Lemma mutate_same_connection (m : mutation) (tx : option nat) (w : World) :
  same_connection w (snd (mutate r m tx w)).
Proof.
  pose proof (perform_same_connection (CallMutate m tx) w) as H.
  cbv [perform bind ret] in H.
  destruct (mutate r m tx w) as [x w']. exact H.
Qed.

Lemma same_connection_quiet (w w' : World) :
  same_connection w w' -> quiet w -> quiet w'.
Proof. intros [_ Ho] Hq n. rewrite Ho. apply Hq. Qed.

Lemma same_connection_serves (w w' : World) :
  same_connection w w' -> serves r w -> serves r w'.
Proof. unfold serves. intros [Ht _] Hs. congruence. Qed.

End SameConnection.

Section DeleteUpdate.

Variable r : SQLiteEndpointRepository.

Lemma Delete_healthy (id : N) (tx : option nat) (w : World) :
  id <> 0%N -> fits_int64 id = true ->
  serves r w -> quiet w -> open_handle w = tx ->
  exists w',
    Repo.Delete r id tx w = (None, w') /\
    written (filter (fun row => negb (Sql.has_id (Z.of_N id) row))) tx w w'.
Proof.
  destruct w as [tbl content otx sts nh orc clk lg].
  unfold serves, quiet, open_handle, written, visible, fits_int64;
    cbn [table oracle open_tx rows].
  intros Hid Hfit -> Hq <-.
  unfold Repo.Delete. apply N.eqb_neq in Hid. rewrite Hid.
  destruct otx as [[t view]|]; cbn [option_map fst];
    run_quiet Hq; rewrite compile_delete_text; run_quiet Hq;
    rewrite Hfit; run_quiet Hq;
    cbn [Engine.run_write]; run_quiet Hq;
    eexists; (split; [reflexivity|]); cbn [open_tx rows];
    split; reflexivity.
Qed.

(** An identifier of 2^63 or more is refused when it is bound: the Delete
    returns the conversion error, after the rollback of the transaction it
    opened, and nothing has changed. *)
Lemma Delete_unfit (id : N) (tx : option nat) (w : World) :
  id <> 0%N -> fits_int64 id = false ->
  serves r w -> quiet w -> open_handle w = tx ->
  exists w',
    Repo.Delete r id tx w = (Some ErrConvert, w') /\
    rows w' = rows w /\ open_tx w' = open_tx w.
Proof.
  destruct w as [tbl content otx sts nh orc clk lg].
  unfold serves, quiet, open_handle, fits_int64; cbn [table oracle open_tx rows].
  intros Hid Hfit -> Hq <-.
  unfold Repo.Delete. apply N.eqb_neq in Hid. rewrite Hid.
  destruct otx as [[t view]|]; cbn [option_map fst];
    run_quiet Hq; rewrite compile_delete_text; run_quiet Hq;
    rewrite Hfit; run_quiet Hq;
    eexists; (split; [reflexivity|]); cbn [open_tx rows];
    split; reflexivity.
Qed.

Lemma set_columns_updated (e : Endpoint) (row : Row) :
  Engine.set_columns (Name e) (Url e) (Method e) (Headers e) (Z.of_N (Id e)) row
  = updated e row.
Proof. unfold Engine.set_columns, updated. now rewrite has_id_eqb. Qed.

Lemma map_set_columns_updated (e : Endpoint) (l : list Row) :
  map (Engine.set_columns (Name e) (Url e) (Method e) (Headers e) (Z.of_N (Id e))) l
  = map (updated e) l.
Proof. apply map_ext. apply set_columns_updated. Qed.

Lemma r_id_updated (e : Endpoint) (row : Row) : r_id (updated e row) = r_id row.
Proof. unfold updated. now destruct (r_id row =? Id e)%N. Qed.

Lemma ids_of_updated (e : Endpoint) (l : list Row) :
  ids_of (map (updated e) l) = ids_of l.
Proof.
  unfold ids_of. rewrite map_map. apply map_ext. apply r_id_updated.
Qed.

Lemma updated_other (e : Endpoint) (row : Row) :
  r_id row <> Id e -> updated e row = row.
Proof. intros H. unfold updated. apply N.eqb_neq in H. now rewrite H. Qed.

Lemma updated_holds (e : Endpoint) (row : Row) :
  r_id row = Id e -> endpoint_of_row (updated e row) = e.
Proof.
  intros H. pose proof (r_id_updated e row) as Hsame.
  unfold updated in *. apply N.eqb_eq in H. rewrite H in *.
  unfold endpoint_of_row. rewrite Hsame. cbn [r_name r_url r_method r_headers].
  apply N.eqb_eq in H. rewrite H. now destruct e.
Qed.

Lemma lookup_updated (e : Endpoint) (l : list Row) :
  lookup (Id e) (map (updated e) l) = option_map (updated e) (lookup (Id e) l).
Proof.
  unfold lookup. induction l as [|row l IH]; [reflexivity|].
  cbn [map find]. rewrite r_id_updated.
  destruct (r_id row =? Id e)%N; [reflexivity | exact IH].
Qed.

Lemma lookup_deleted (id : N) (l : list Row) :
  lookup id (filter (fun row => negb (Sql.has_id (Z.of_N id) row)) l) = None.
Proof.
  unfold lookup. induction l as [|row l IH]; [reflexivity|].
  cbn [filter]. rewrite has_id_eqb.
  destruct (r_id row =? id)%N eqn:E; cbn [negb]; [exact IH|].
  cbn [find]. now rewrite E.
Qed.

End DeleteUpdate.

Section Effects.

Variable r : SQLiteEndpointRepository.

Lemma standalone_visible (w w' : World) :
  open_tx w = None -> open_handle w' = open_handle w -> visible w' = rows w'.
Proof.
  unfold open_handle, visible. intros -> H. cbn in H.
  destruct (open_tx w') as [[t v]|]; [discriminate | reflexivity].
Qed.

Lemma filter_not_has_id (id : N) (l : list Row) :
  filter (fun row => negb (Sql.has_id (Z.of_N id) row)) l
  = filter (fun row => negb (r_id row =? id)%N) l.
Proof. apply filter_ext. intros row. now rewrite has_id_eqb. Qed.

Lemma filter_only (id : N) (l : list Row) :
  filter (fun row => negb (Sql.in_ids [id] row)) l
  = filter (fun row => negb (r_id row =? id)%N) l.
Proof.
  apply filter_ext. intros row. unfold Sql.in_ids. cbn [existsb].
  now rewrite orb_false_r.
Qed.

Lemma filter_unfit (id : N) (l : list Row) :
  fits_int64 id = false -> filter (fun row => negb (r_id row =? id)%N) l = l.
Proof.
  intros H. induction l as [|row l IH]; [reflexivity|].
  cbn [filter]. rewrite (unfit_has_no_row id row H). cbn [negb]. now rewrite IH.
Qed.

Lemma written_same (f g : list Row -> list Row) (tx : option nat) (w w' : World) :
  (forall l, f l = g l) -> written f tx w w' -> written g tx w w'.
Proof.
  intros Hfg. unfold written. destruct tx as [t|]; now rewrite Hfg.
Qed.

Lemma Create_healthy (e : Endpoint) (tx : option nat) (w : World) :
  Id e = 0%N -> serves r w -> quiet w -> open_handle w = tx ->
  (Z.of_N (N.succ (Sql.max_id (visible w))) < 2 ^ 63)%Z ->
  exists w',
    Repo.Create r (Some e) tx w = (Ok (N.succ (Sql.max_id (visible w))), w') /\
    visible w' = (visible w ++ [created_row (N.succ (Sql.max_id (visible w))) e])%list /\
    open_handle w' = open_handle w /\
    (tx <> None -> rows w' = rows w).
Proof.
  destruct w as [tbl content otx sts nh orc clk lg].
  unfold serves, quiet, open_handle, visible; cbn [table oracle open_tx rows].
  intros Hid -> Hq <- Hsmall.
  unfold Repo.Create. rewrite Hid. change (0 <? 0)%N with false. cbv iota.
  destruct otx as [[t view]|]; cbn [option_map fst];
    run_quiet Hq; rewrite compile_insert_text; run_quiet Hq;
    cbn [Engine.run_write]; apply Z.ltb_lt in Hsmall; rewrite Hsmall;
    apply Z.ltb_lt in Hsmall; run_quiet Hq;
    rewrite uint64_of_small by assumption;
    eexists; (split; [reflexivity|]); cbn [open_tx rows option_map fst];
    repeat split; try reflexivity; intros H; now contradiction H.
Qed.

Lemma fresh_id_unused (content : list Row) :
  ~ In (N.succ (Sql.max_id content)) (ids_of content).
Proof.
  unfold ids_of. intros Hin. apply in_map_iff in Hin as (row & E & Hin).
  apply max_id_bound in Hin. lia.
Qed.

End Effects.

(** X5: when Create of an entity with identifier 0 returns an identifier, it
    is not 0 and no row that was visible has it, and the new row holds the
    name, url, method and headers of the entity under it.  Called without
    a transaction, Create has committed: no transaction is open and the
    committed table is the previous one followed by the new row.  Given
    the transaction of the caller, the view of that transaction is the
    previous one followed by the new row, the transaction stays open and
    the committed table is as it was. *)
Theorem Create_appends_fresh_row
    (r : SQLiteEndpointRepository) (e : Endpoint) (tx : option nat)
    (w w' : World) (id : N) :
  Id e = 0%N -> serves r w -> open_handle w = tx ->
  Repo.Create r (Some e) tx w = (Ok id, w') ->
  id <> 0%N /\
  ~ In id (ids_of (visible w)) /\
  endpoint_of_row (created_row id e)
  = mkEndpoint id (Name e) (Url e) (Method e) (Headers e) /\
  written (fun content => (content ++ [created_row id e])%list) tx w w'.
Proof.
  intros Hid Hs _ Hc.
  destruct (Create_success r e tx w id w' Hid Hs Hc)
    as (Hnew & Hpos & Hfit & _ & Htx).
  split; [lia|]. split; [rewrite Hnew; apply fresh_id_unused|]. split.
  - unfold endpoint_of_row, created_row. now rewrite (r_id_new _ _ _ _ _ Hfit).
  - unfold written, created_row. destruct tx as [t|].
    + exact Htx.
    + destruct Htx as (Hopen & Hrows & _). now split.
Qed.

Lemma Create_appends_fresh_row_witness :
  let r := NewSQLiteEndpointRepository "endpoints" in
  let w := mkWorld "endpoints"
             [mkRow 4 "d" "u" "GET" "{}"; mkRow 2 "b" "u" "GET" "{}"]
             None [] 0 (fun _ => false) 0 [] in
  let e := mkEndpoint 0 "n" "http://n" "POST" "{}" in
  fst (Repo.Create r (Some e) None w) = Ok 5%N /\
  open_tx (snd (Repo.Create r (Some e) None w)) = None /\
  rows (snd (Repo.Create r (Some e) None w))
  = [mkRow 4 "d" "u" "GET" "{}"; mkRow 2 "b" "u" "GET" "{}";
     mkRow 5 "n" "http://n" "POST" "{}"].
Proof.
  cbv zeta. split; [vm_compute; reflexivity|].
  destruct (Create_appends_fresh_row (NewSQLiteEndpointRepository "endpoints")
              (mkEndpoint 0 "n" "http://n" "POST" "{}") None
              (mkWorld "endpoints"
                 [mkRow 4 "d" "u" "GET" "{}"; mkRow 2 "b" "u" "GET" "{}"]
                 None [] 0 (fun _ => false) 0 [])
              (snd (Repo.Create (NewSQLiteEndpointRepository "endpoints")
                      (Some (mkEndpoint 0 "n" "http://n" "POST" "{}")) None
                      (mkWorld "endpoints"
                         [mkRow 4 "d" "u" "GET" "{}"; mkRow 2 "b" "u" "GET" "{}"]
                         None [] 0 (fun _ => false) 0 [])))
              5%N)
    as (_ & _ & _ & Hrows & Hopen).
  - reflexivity.
  - reflexivity.
  - reflexivity.
  - vm_compute. reflexivity.
  - split; [exact Hopen | exact Hrows].
Defined.

(** X6: on a healthy connection Delete with an identifier that is not 0 and
    below 2^63 returns no error, whether or not a row has the identifier.
    Called without a transaction it has committed: no transaction is open
    and the committed table is the previous one without the rows of that
    identifier, the others in place.  Given the transaction of the caller,
    the view of that transaction is so reduced, the transaction stays open
    and the committed table is as it was.  A lookup of the identifier in
    what remains finds nothing. *)
Theorem Delete_removes_that_row
    (r : SQLiteEndpointRepository) (id : N) (tx : option nat) (w : World) :
  id <> 0%N -> fits_int64 id = true ->
  serves r w -> quiet w -> open_handle w = tx ->
  let others := filter (fun row => negb (r_id row =? id)%N) in
  exists w',
    Repo.Delete r id tx w = (None, w') /\
    written others tx w w' /\
    (forall content, lookup id (others content) = None) /\
    (forall content other,
       r_id other <> id -> In other content -> In other (others content)).
Proof.
  intros Hid Hfit Hs Hq Htx. cbv zeta.
  destruct (Delete_healthy r id tx w Hid Hfit Hs Hq Htx) as (w' & Hd & Hw).
  exists w'. split; [exact Hd|]. split; [|split].
  - exact (written_same _ _ tx w w' (filter_not_has_id id) Hw).
  - intros content. rewrite <- filter_not_has_id. apply lookup_deleted.
  - intros content other Hother Hin. apply filter_In. split; [exact Hin|].
    apply negb_true_iff. now apply N.eqb_neq.
Qed.

Lemma Delete_removes_that_row_witness :
  exists w',
    Repo.Delete (NewSQLiteEndpointRepository "endpoints") 2 None
      (mkWorld "endpoints"
         [mkRow 1 "a" "u" "GET" "{}"; mkRow 2 "b" "u" "GET" "{}";
          mkRow 3 "c" "u" "GET" "{}"]
         None [] 0 (fun _ => false) 0 [])
    = (None, w') /\
    open_tx w' = None /\
    rows w' = [mkRow 1 "a" "u" "GET" "{}"; mkRow 3 "c" "u" "GET" "{}"].
Proof.
  destruct (Delete_removes_that_row (NewSQLiteEndpointRepository "endpoints")
              2 None
              (mkWorld "endpoints"
                 [mkRow 1 "a" "u" "GET" "{}"; mkRow 2 "b" "u" "GET" "{}";
                  mkRow 3 "c" "u" "GET" "{}"]
                 None [] 0 (fun _ => false) 0 []))
    as (w' & Hd & (Hrows & Hopen) & _).
  - discriminate.
  - reflexivity.
  - reflexivity.
  - intros n. reflexivity.
  - reflexivity.
  - exists w'. split; [exact Hd|]. split; [exact Hopen|].
    rewrite Hrows. vm_compute. reflexivity.
Defined.

Lemma append_cancel_l (a x y : string) : a ++ x = a ++ y -> x = y.
Proof.
  induction a as [|c a IH]; cbn [append]; [trivial|].
  intros [= E]. now apply IH.
Qed.

(** X7: a Delete that owns its transaction, then a Get of the same
    identifier, on a healthy connection and with an identifier that is not
    0.  Below 2^63 the Delete returns no error and the Get finds no row;
    from 2^63 on the driver refuses to bind the identifier and both return
    its conversion error. *)
Theorem Delete_then_Get
    (r : SQLiteEndpointRepository) (id : N) (w : World) :
  id <> 0%N -> serves r w -> quiet w -> open_tx w = None ->
  fst (Repo.Delete r id None w)
  = (if fits_int64 id then None else Some ErrConvert) /\
  fst (Repo.Get r id (snd (Repo.Delete r id None w)))
  = if fits_int64 id then Err ErrNoRows else Err ErrConvert.
Proof.
  intros Hid Hs Hq Hopen.
  assert (open_handle w = None) as Htx by (unfold open_handle; now rewrite Hopen).
  pose proof (mutate_same_connection r (DoDelete id) None w) as Hsame.
  cbn [mutate] in Hsame.
  rewrite (Get_lookup_healthy r id _ Hid (same_connection_serves r w _ Hsame Hs)
             (same_connection_quiet w _ Hsame Hq)).
  destruct (fits_int64 id) eqn:Hfit.
  - destruct (Delete_healthy r id None w Hid Hfit Hs Hq Htx) as (w' & Hd & Hrows & _).
    rewrite Hd. cbn [fst snd]. split; [reflexivity|].
    now rewrite Hrows, lookup_deleted.
  - destruct (Delete_unfit r id None w Hid Hfit Hs Hq Htx) as (w' & Hd & _).
    rewrite Hd. now split.
Qed.

Lemma Delete_then_Get_witness :
  let r := NewSQLiteEndpointRepository "endpoints" in
  let w := mkWorld "endpoints"
             [mkRow 1 "a" "u" "GET" "{}"; mkRow 2 "b" "u" "GET" "{}"]
             None [] 0 (fun _ => false) 0 [] in
  fst (Repo.Get r 2 w) = Ok (mkEndpoint 2 "b" "u" "GET" "{}") /\
  fst (Repo.Delete r 2 None w) = None /\
  fst (Repo.Get r 2 (snd (Repo.Delete r 2 None w))) = Err ErrNoRows.
Proof.
  cbv zeta. split; [vm_compute; reflexivity|].
  apply (Delete_then_Get (NewSQLiteEndpointRepository "endpoints") 2
           (mkWorld "endpoints"
              [mkRow 1 "a" "u" "GET" "{}"; mkRow 2 "b" "u" "GET" "{}"]
              None [] 0 (fun _ => false) 0 [])).
  - discriminate.
  - reflexivity.
  - intros n. reflexivity.
  - reflexivity.
Defined.

(** X8: for an identifier that is not 0, DeleteMany of the one-element list
    and Delete build different statements and, on a healthy connection,
    leave the same committed table and the same open transaction.  Below
    2^63 both return no error.  From 2^63 on, Delete binds the identifier
    and returns the conversion error of the driver, while DeleteMany,
    which writes it into the text, returns no error: no row has such an
    identifier and nothing is deleted. *)
Theorem DeleteMany_of_one_is_Delete
    (r : SQLiteEndpointRepository) (id : N) (tx : option nat) (w : World) :
  id <> 0%N -> serves r w -> quiet w -> open_handle w = tx ->
  delete_many_text r [id] <> delete_text r /\
  fst (Repo.DeleteMany r [id] tx w) = None /\
  fst (Repo.Delete r id tx w) = (if fits_int64 id then None else Some ErrConvert) /\
  rows (snd (Repo.DeleteMany r [id] tx w)) = rows (snd (Repo.Delete r id tx w)) /\
  open_tx (snd (Repo.DeleteMany r [id] tx w)) = open_tx (snd (Repo.Delete r id tx w)).
Proof.
  intros Hid Hs Hq Htx.
  assert ([id] <> []) as Hne by discriminate.
  destruct (DeleteMany_healthy r [id] tx w Hne Hs Hq Htx) as (w2 & Hm & Hw2 & _).
  apply (written_same _ _ tx w w2 (filter_only id)) in Hw2.
  rewrite Hm. cbn [fst snd]. split; [|split; [reflexivity|]].
  { rewrite delete_many_text_eq, delete_text_eq. intros E.
    apply (append_cancel_l "DELETE FROM ") in E.
    apply append_cancel_l in E. discriminate E. }
  destruct (fits_int64 id) eqn:Hfit.
  - destruct (Delete_healthy r id tx w Hid Hfit Hs Hq Htx) as (w1 & Hd & Hw1).
    apply (written_same _ _ tx w w1 (filter_not_has_id id)) in Hw1.
    rewrite Hd. cbn [fst snd]. split; [reflexivity|].
    unfold written in *. destruct tx as [t|];
      destruct Hw1 as [Hr1 Ho1], Hw2 as [Hr2 Ho2]; split; congruence.
  - destruct (Delete_unfit r id tx w Hid Hfit Hs Hq Htx) as (w1 & Hd & Hr1 & Ho1).
    rewrite Hd. cbn [fst snd]. split; [reflexivity|].
    apply (written_same _ _ tx w w2 (fun l => filter_unfit id l Hfit)) in Hw2.
    unfold written in Hw2. destruct tx as [t|]; destruct Hw2 as [Hr2 Ho2].
    + split; [congruence|]. rewrite Ho1, Ho2. symmetry. now apply open_tx_visible.
    + split; [congruence|]. rewrite Ho1, Ho2.
      unfold open_handle in Htx. now destruct (open_tx w).
Qed.

Lemma DeleteMany_of_one_is_Delete_witness :
  let r := NewSQLiteEndpointRepository "endpoints" in
  let w := mkWorld "endpoints"
             [mkRow 1 "a" "u" "GET" "{}"; mkRow 2 "b" "u" "GET" "{}"]
             (Some (7, [mkRow 1 "a" "u" "GET" "{}"; mkRow 3 "c" "u" "GET" "{}"]))
             [] 8 (fun _ => false) 0 [] in
  open_tx (snd (Repo.DeleteMany r [3%N] (Some 7) w))
  = Some (7, [mkRow 1 "a" "u" "GET" "{}"]) /\
  open_tx (snd (Repo.DeleteMany r [3%N] (Some 7) w))
  = open_tx (snd (Repo.Delete r 3 (Some 7) w)).
Proof.
  cbv zeta. split; [vm_compute; reflexivity|].
  apply (DeleteMany_of_one_is_Delete (NewSQLiteEndpointRepository "endpoints") 3
           (Some 7)
           (mkWorld "endpoints"
              [mkRow 1 "a" "u" "GET" "{}"; mkRow 2 "b" "u" "GET" "{}"]
              (Some (7, [mkRow 1 "a" "u" "GET" "{}"; mkRow 3 "c" "u" "GET" "{}"]))
              [] 8 (fun _ => false) 0 [])).
  - discriminate.
  - reflexivity.
  - intros n. reflexivity.
  - reflexivity.
Defined.

(** X9: on a healthy connection Update of an entity whose identifier is not
    0 and below 2^63 returns no error and rewrites the rows with that
    identifier: they hold the entity afterwards, every other row is as it
    was, and the identifiers and the order of the rows are the same.
    Called without a transaction it has committed: no transaction is open
    and the committed table is the rewritten one.  Given the transaction
    of the caller, the view of that transaction is rewritten, the
    transaction stays open and the committed table is as it was. *)
Theorem Update_rewrites_that_row
    (r : SQLiteEndpointRepository) (e : Endpoint) (tx : option nat) (w : World) :
  Id e <> 0%N -> fits_int64 (Id e) = true ->
  serves r w -> quiet w -> open_handle w = tx ->
  exists w',
    Repo.Update r (Some e) tx w = (None, w') /\
    written (map (updated e)) tx w w' /\
    (forall row, r_id row = Id e -> endpoint_of_row (updated e row) = e) /\
    (forall row, r_id row <> Id e -> updated e row = row) /\
    (forall content, ids_of (map (updated e) content) = ids_of content).
Proof.
  intros Hid Hfit Hs Hq Htx.
  destruct (Update_healthy r e tx w Hid Hfit Hs Hq Htx) as (w' & Hu & Hw & _).
  exists w'. split; [exact Hu|]. split; [|split; [|split]].
  - exact (written_same _ _ tx w w' (map_set_columns_updated e) Hw).
  - apply updated_holds.
  - apply updated_other.
  - apply ids_of_updated.
Qed.

Lemma Update_rewrites_that_row_witness :
  exists w',
    Repo.Update (NewSQLiteEndpointRepository "endpoints")
      (Some (mkEndpoint 2 "B" "http://b" "PUT" "{x}")) None
      (mkWorld "endpoints"
         [mkRow 1 "a" "u" "GET" "{}"; mkRow 2 "b" "u" "GET" "{}"]
         None [] 0 (fun _ => false) 0 [])
    = (None, w') /\
    open_tx w' = None /\
    rows w' = [mkRow 1 "a" "u" "GET" "{}"; mkRow 2 "B" "http://b" "PUT" "{x}"].
Proof.
  destruct (Update_rewrites_that_row (NewSQLiteEndpointRepository "endpoints")
              (mkEndpoint 2 "B" "http://b" "PUT" "{x}") None
              (mkWorld "endpoints"
                 [mkRow 1 "a" "u" "GET" "{}"; mkRow 2 "b" "u" "GET" "{}"]
                 None [] 0 (fun _ => false) 0 []))
    as (w' & Hu & (Hrows & Hopen) & _).
  - discriminate.
  - reflexivity.
  - reflexivity.
  - intros n. reflexivity.
  - reflexivity.
  - exists w'. split; [exact Hu|]. split; [exact Hopen|].
    rewrite Hrows. vm_compute. reflexivity.
Defined.

(** X10: an Update that owns its transaction, of an entity whose identifier a
    row has, then a Get of that identifier: the Get returns the entity that
    was written. *)
Theorem Update_then_Get
    (r : SQLiteEndpointRepository) (e : Endpoint) (w : World) :
  Id e <> 0%N -> serves r w -> quiet w -> open_tx w = None ->
  lookup (Id e) (rows w) <> None ->
  fst (Repo.Get r (Id e) (snd (Repo.Update r (Some e) None w))) = Ok e.
Proof.
  intros Hid Hs Hq Hopen Hrow.
  assert (open_handle w = None) as Htx by (unfold open_handle; now rewrite Hopen).
  pose proof (lookup_fits _ _ Hrow) as Hfit.
  destruct (Update_healthy r e None w Hid Hfit Hs Hq Htx) as (w' & Hu & (Hrows & _) & _).
  pose proof (mutate_same_connection r (DoUpdate (Some e)) None w) as Hsame.
  cbn [mutate] in Hsame. rewrite Hu in *. cbn [snd] in *.
  rewrite (Get_lookup_healthy r (Id e) w' Hid (same_connection_serves r w w' Hsame Hs)
             (same_connection_quiet w w' Hsame Hq)).
  rewrite Hfit, Hrows, map_set_columns_updated, lookup_updated.
  destruct (lookup (Id e) (rows w)) as [row|] eqn:E; [|contradiction].
  apply lookup_some in E as [_ E].
  cbn [option_map found]. f_equal. now apply updated_holds.
Qed.

Lemma Update_then_Get_witness :
  fst (Repo.Get (NewSQLiteEndpointRepository "endpoints") 2
         (snd (Repo.Update (NewSQLiteEndpointRepository "endpoints")
                 (Some (mkEndpoint 2 "B" "http://b" "PUT" "{x}")) None
                 (mkWorld "endpoints"
                    [mkRow 1 "a" "u" "GET" "{}"; mkRow 2 "b" "u" "GET" "{}"]
                    None [] 0 (fun _ => false) 0 []))))
  = Ok (mkEndpoint 2 "B" "http://b" "PUT" "{x}").
Proof.
  apply (Update_then_Get (NewSQLiteEndpointRepository "endpoints")
           (mkEndpoint 2 "B" "http://b" "PUT" "{x}")
           (mkWorld "endpoints"
              [mkRow 1 "a" "u" "GET" "{}"; mkRow 2 "b" "u" "GET" "{}"]
              None [] 0 (fun _ => false) 0 [])).
  - discriminate.
  - reflexivity.
  - intros n. reflexivity.
  - reflexivity.
  - discriminate.
Defined.

(** X3: on a healthy connection Count returns the number of rows of the
    committed table; rows that only an open transaction has are not
    counted. *)
Theorem Count_is_number_of_rows (r : SQLiteEndpointRepository) (w : World) :
  serves r w -> quiet w ->
  fst (Repo.Count r w) = Ok (N.of_nat (List.length (rows w))).
Proof. apply Count_healthy. Qed.

Lemma Count_is_number_of_rows_witness :
  fst (Repo.Count (NewSQLiteEndpointRepository "endpoints")
         (mkWorld "endpoints"
            [mkRow 1 "a" "u" "GET" "{}"; mkRow 2 "b" "u" "GET" "{}"]
            (Some (7, [mkRow 1 "a" "u" "GET" "{}"]))
            [] 8 (fun _ => false) 0 []))
  = Ok 2%N.
Proof.
  apply (Count_is_number_of_rows (NewSQLiteEndpointRepository "endpoints")
           (mkWorld "endpoints"
              [mkRow 1 "a" "u" "GET" "{}"; mkRow 2 "b" "u" "GET" "{}"]
              (Some (7, [mkRow 1 "a" "u" "GET" "{}"]))
              [] 8 (fun _ => false) 0 [])).
  - reflexivity.
  - intros n. reflexivity.
Defined.

(** X4: Count after a Create that owns its transaction is one more than Count
    before; after a DeleteMany that owns its transaction it is the number
    of rows whose identifier is not listed. *)
Theorem Count_follows_mutations
    (r : SQLiteEndpointRepository) (e : Endpoint) (ids : list N) (w : World) :
  serves r w -> quiet w -> open_tx w = None ->
  (Id e = 0%N ->
   (Z.of_N (N.succ (Sql.max_id (rows w))) < 2 ^ 63)%Z ->
   fst (Repo.Count r (snd (Repo.Create r (Some e) None w)))
   = Ok (N.of_nat (List.length (rows w)) + 1)%N) /\
  (ids <> [] ->
   fst (Repo.Count r (snd (Repo.DeleteMany r ids None w)))
   = Ok (N.of_nat (List.length
                     (filter (fun row => negb (Sql.in_ids ids row)) (rows w))))).
Proof.
  intros Hs Hq Hopen.
  assert (open_handle w = None) as Htx by (unfold open_handle; now rewrite Hopen).
  assert (visible w = rows w) as Hvis by (unfold visible; now rewrite Hopen).
  split.
  - intros Hid Hsmall. rewrite <- Hvis in Hsmall.
    destruct (Create_healthy r e None w Hid Hs Hq Htx Hsmall) as (w' & Hc & Hv & Hh & _).
    pose proof (mutate_same_connection r (DoCreate (Some e)) None w) as Hsame.
    cbn [mutate] in Hsame. cbv [bind ret] in Hsame. rewrite Hc in *. cbn [snd] in *.
    rewrite (Count_healthy r w' (same_connection_serves r w w' Hsame Hs)
               (same_connection_quiet w w' Hsame Hq)).
    rewrite <- (standalone_visible w w' Hopen Hh), Hv, Hvis, length_app.
    cbn [List.length]. f_equal. lia.
  - intros Hne.
    destruct (DeleteMany_healthy r ids None w Hne Hs Hq Htx)
      as (w' & Hd & (Hrows & _) & _).
    pose proof (mutate_same_connection r (DoDeleteMany ids) None w) as Hsame.
    cbn [mutate] in Hsame. rewrite Hd in *. cbn [snd] in *.
    rewrite (Count_healthy r w' (same_connection_serves r w w' Hsame Hs)
               (same_connection_quiet w w' Hsame Hq)).
    now rewrite Hrows.
Qed.

Lemma Count_follows_mutations_witness :
  let r := NewSQLiteEndpointRepository "endpoints" in
  let w := mkWorld "endpoints"
             [mkRow 1 "a" "u" "GET" "{}"; mkRow 2 "b" "u" "GET" "{}";
              mkRow 3 "c" "u" "GET" "{}"]
             None [] 0 (fun _ => false) 0 [] in
  fst (Repo.Count r (snd (Repo.Create r (Some (mkEndpoint 0 "d" "u" "GET" "{}")) None w)))
  = Ok 4%N /\
  fst (Repo.Count r (snd (Repo.DeleteMany r [1; 3]%N None w))) = Ok 1%N.
Proof.
  cbv zeta.
  destruct (Count_follows_mutations (NewSQLiteEndpointRepository "endpoints")
              (mkEndpoint 0 "d" "u" "GET" "{}") [1; 3]%N
              (mkWorld "endpoints"
                 [mkRow 1 "a" "u" "GET" "{}"; mkRow 2 "b" "u" "GET" "{}";
                  mkRow 3 "c" "u" "GET" "{}"]
                 None [] 0 (fun _ => false) 0 []))
    as (Hc & Hd).
  - reflexivity.
  - intros n. reflexivity.
  - reflexivity.
  - split.
    + apply Hc; [reflexivity | vm_compute; reflexivity].
    + apply Hd. discriminate.
Defined.

(* ================================================================== *)
(** ** All or nothing *)

Section Atomicity.

Variable r : SQLiteEndpointRepository.

Lemma failure_keeps_table_any (m : mutation) (tx : option nat) (w : World) :
  failure_keeps_table w (mutate r m tx w).
Proof.
  destruct w as [tbl content otx sts nh orc clk lg].
  destruct tx as [t|]; destruct m as [e|e|id|ids]; run;
    cbv [failure_keeps_table]; cbn [fst snd rows];
    first [ reflexivity | intros H; now contradiction H ].
Qed.

Lemma borrowed_keeps_table (m : mutation) (t : nat) (w : World) :
  table_kept w (snd (mutate r m (Some t) w)).
Proof.
  destruct w as [tbl content otx sts nh orc clk lg].
  destruct m as [e|e|id|ids]; run; reflexivity.
Qed.

Lemma borrowed_all_keep_table (ms : list mutation) (t : nat) (w : World) :
  rows (snd (mutate_all r ms (Some t) w)) = rows w /\
  open_handle (snd (mutate_all r ms (Some t) w)) = open_handle w.
Proof.
  revert w. induction ms as [|m ms IH]; intros w; [split; reflexivity|].
  cbn [mutate_all]. cbv [bind ret].
  pose proof (borrowed_keeps_table m t w) as Hk.
  pose proof (borrowed_untouched r m t w) as (_ & _ & Hh).
  destruct (mutate r m (Some t) w) as [e w1]. cbn [snd] in *.
  specialize (IH w1). destruct (mutate_all r ms (Some t) w1) as [es w2].
  cbn [snd] in *. unfold table_kept in Hk. destruct IH as [IHr IHh].
  split; congruence.
Qed.

Lemma Rollback_keeps_table (t : nat) (w : World) :
  rows (snd (Driver.Rollback t w)) = rows w /\
  (open_handle w = Some t -> open_tx (snd (Driver.Rollback t w)) = None).
Proof.
  destruct w as [tbl content otx sts nh orc clk lg].
  unfold open_handle. cbn [open_tx]. run; cbn [rows open_tx option_map fst];
    split; try reflexivity; intros [= E]; try discriminate.
  subst. now rewrite Nat.eqb_refl in *.
Qed.

End Atomicity.

(** X11: a mutation that returns an error, at whatever step and whoever owns the
    transaction, leaves the committed table as it was. *)
Theorem failed_mutation_keeps_table
    (r : SQLiteEndpointRepository) (m : mutation) (tx : option nat) (w : World) :
  fst (mutate r m tx w) <> None -> rows (snd (mutate r m tx w)) = rows w.
Proof. apply (failure_keeps_table_any r m tx w). Qed.

Lemma failed_mutation_keeps_table_witness :
  let r := NewSQLiteEndpointRepository "endpoints" in
  let w := mkWorld "endpoints" [mkRow 1 "a" "u" "GET" "{}"] None [] 0
             (fun n => Nat.eqb n 3) 0 [] in
  fst (mutate r (DoCreate (Some (mkEndpoint 0 "b" "u" "GET" "{}"))) None w)
  = Some ErrFault /\
  rows (snd (mutate r (DoCreate (Some (mkEndpoint 0 "b" "u" "GET" "{}"))) None w))
  = [mkRow 1 "a" "u" "GET" "{}"].
Proof.
  cbv zeta. split; [vm_compute; reflexivity|].
  apply (failed_mutation_keeps_table (NewSQLiteEndpointRepository "endpoints")
           (DoCreate (Some (mkEndpoint 0 "b" "u" "GET" "{}"))) None
           (mkWorld "endpoints" [mkRow 1 "a" "u" "GET" "{}"] None [] 0
              (fun n => Nat.eqb n 3) 0 [])).
  vm_compute. discriminate.
Defined.

(** X12: mutations that are given the open transaction of a caller, however
    many and whatever they return, leave the committed table as it is and
    the transaction open; when the caller then rolls it back, the table is
    as it was before the first of them and the transaction is closed. *)
Theorem borrowed_mutations_rolled_back
    (r : SQLiteEndpointRepository) (ms : list mutation) (t : nat) (w : World) :
  open_handle w = Some t ->
  let w1 := snd (mutate_all r ms (Some t) w) in
  let w2 := snd (Driver.Rollback t w1) in
  rows w1 = rows w /\ open_handle w1 = Some t /\
  rows w2 = rows w /\ open_tx w2 = None.
Proof.
  intros Hopen. cbv zeta.
  destruct (borrowed_all_keep_table r ms t w) as [Hr Hh].
  destruct (Rollback_keeps_table t (snd (mutate_all r ms (Some t) w))) as [Hr2 Ho].
  repeat split; [exact Hr | congruence | congruence |].
  apply Ho. congruence.
Qed.

Lemma borrowed_mutations_rolled_back_witness :
  let r := NewSQLiteEndpointRepository "endpoints" in
  let w := mkWorld "endpoints" [mkRow 1 "a" "u" "GET" "{}"]
             (Some (4, [mkRow 1 "a" "u" "GET" "{}"])) [] 5 (fun _ => false) 0 [] in
  let ms := [DoCreate (Some (mkEndpoint 0 "b" "u" "GET" "{}"));
             DoDelete 1; DoCreate (Some (mkEndpoint 9 "c" "u" "GET" "{}"))] in
  fst (mutate_all r ms (Some 4) w)
  = [None; None; Some (InvalidArgument "endpoint already created")] /\
  visible (snd (mutate_all r ms (Some 4) w)) = [mkRow 2 "b" "u" "GET" "{}"] /\
  rows (snd (Driver.Rollback 4 (snd (mutate_all r ms (Some 4) w))))
  = [mkRow 1 "a" "u" "GET" "{}"].
Proof.
  cbv zeta. split; [vm_compute; reflexivity|]. split; [vm_compute; reflexivity|].
  apply (borrowed_mutations_rolled_back (NewSQLiteEndpointRepository "endpoints")
           [DoCreate (Some (mkEndpoint 0 "b" "u" "GET" "{}"));
            DoDelete 1; DoCreate (Some (mkEndpoint 9 "c" "u" "GET" "{}"))]
           4
           (mkWorld "endpoints" [mkRow 1 "a" "u" "GET" "{}"]
              (Some (4, [mkRow 1 "a" "u" "GET" "{}"])) [] 5 (fun _ => false) 0 [])).
  reflexivity.
Defined.

Section SharedTransaction.

Variable r : SQLiteEndpointRepository.

Lemma max_id_app (l : list Row) (row : Row) :
  Sql.max_id (l ++ [row]) = N.max (Sql.max_id l) (r_id row).
Proof.
  unfold Sql.max_id. induction l as [|x l IH]; cbn [app fold_right]; [lia|].
  rewrite IH. lia.
Qed.

Lemma Commit_healthy (t : nat) (view : list Row) (w : World) :
  quiet w -> open_tx w = Some (t, view) ->
  fst (Driver.Commit t w) = None /\
  rows (snd (Driver.Commit t w)) = view /\
  open_tx (snd (Driver.Commit t w)) = None.
Proof.
  destruct w as [tbl content otx sts nh orc clk lg].
  unfold quiet; cbn [oracle open_tx]. intros Hq ->.
  run_quiet Hq. repeat split.
Qed.

End SharedTransaction.

(** X13: two Creates that are given the same open transaction of a caller, on a
    healthy connection: they return consecutive identifiers and leave the
    committed table as it is; when the caller then commits, the table is
    what the transaction saw before, followed by the two rows in the order
    of the calls. *)
Theorem borrowed_creates_committed
    (r : SQLiteEndpointRepository) (a b : Endpoint) (t : nat) (w : World) :
  Id a = 0%N -> Id b = 0%N -> serves r w -> quiet w -> open_handle w = Some t ->
  (Z.of_N (Sql.max_id (visible w) + 2) < 2 ^ 63)%Z ->
  let n := Sql.max_id (visible w) in
  let w1 := snd (Repo.Create r (Some a) (Some t) w) in
  let w2 := snd (Repo.Create r (Some b) (Some t) w1) in
  let w3 := snd (Driver.Commit t w2) in
  fst (Repo.Create r (Some a) (Some t) w) = Ok (n + 1)%N /\
  fst (Repo.Create r (Some b) (Some t) w1) = Ok (n + 2)%N /\
  rows w2 = rows w /\
  fst (Driver.Commit t w2) = None /\
  rows w3 = (visible w ++ [created_row (n + 1) a; created_row (n + 2) b])%list /\
  open_tx w3 = None.
Proof.
  intros Ha Hb Hs Hq Htx Hsmall. cbv zeta.
  assert (Z.of_N (N.succ (Sql.max_id (visible w))) < 2 ^ 63)%Z as Hs1 by lia.
  destruct (Create_healthy r a (Some t) w Ha Hs Hq Htx Hs1)
    as (w1 & Hc1 & Hv1 & Hh1 & Hr1).
  pose proof (mutate_same_connection r (DoCreate (Some a)) (Some t) w) as Hsame1.
  cbn [mutate] in Hsame1. cbv [bind ret] in Hsame1.
  rewrite Hc1 in *. cbn [fst snd] in *.
  assert (Sql.max_id (visible w1) = N.succ (Sql.max_id (visible w))) as Hmax.
  { rewrite Hv1, max_id_app. unfold created_row.
    rewrite (r_id_new _ _ _ _ _ Hs1). lia. }
  assert (Z.of_N (N.succ (Sql.max_id (visible w1))) < 2 ^ 63)%Z as Hs2
    by (rewrite Hmax; lia).
  assert (open_handle w1 = Some t) as Htx1 by congruence.
  destruct (Create_healthy r b (Some t) w1 Hb
              (same_connection_serves r w w1 Hsame1 Hs)
              (same_connection_quiet w w1 Hsame1 Hq) Htx1 Hs2)
    as (w2 & Hc2 & Hv2 & Hh2 & Hr2).
  pose proof (mutate_same_connection r (DoCreate (Some b)) (Some t) w1) as Hsame2.
  cbn [mutate] in Hsame2. cbv [bind ret] in Hsame2.
  rewrite Hc2 in *. cbn [fst snd] in *.
  assert (open_tx w2 = Some (t, visible w2)) as Hopen2.
  { unfold open_handle, visible in *. rewrite <- Hh2 in Htx1.
    destruct (open_tx w2) as [[t' v]|]; cbn in Htx1; [|discriminate].
    now injection Htx1 as ->. }
  destruct (Commit_healthy t (visible w2) w2
              (same_connection_quiet w1 w2 Hsame2
                 (same_connection_quiet w w1 Hsame1 Hq)) Hopen2)
    as (Hc3 & Hr3 & Ho3).
  rewrite Hmax in Hc2, Hv2.
  repeat split.
  - f_equal. lia.
  - f_equal. lia.
  - rewrite Hr2, Hr1; [reflexivity | discriminate | discriminate].
  - exact Hc3.
  - rewrite Hr3, Hv2, Hv1, <- app_assoc. cbn [app].
    repeat f_equal; lia.
  - exact Ho3.
Qed.

Lemma borrowed_creates_committed_witness :
  let r := NewSQLiteEndpointRepository "endpoints" in
  let w := mkWorld "endpoints" [mkRow 1 "a" "u" "GET" "{}"]
             (Some (4, [mkRow 1 "a" "u" "GET" "{}"])) [] 5 (fun _ => false) 0 [] in
  let a := mkEndpoint 0 "x" "u" "GET" "{}" in
  let b := mkEndpoint 0 "y" "u" "GET" "{}" in
  rows (snd (Driver.Commit 4
               (snd (Repo.Create r (Some b) (Some 4)
                       (snd (Repo.Create r (Some a) (Some 4) w))))))
  = [mkRow 1 "a" "u" "GET" "{}"; mkRow 2 "x" "u" "GET" "{}";
     mkRow 3 "y" "u" "GET" "{}"].
Proof.
  cbv zeta.
  destruct (borrowed_creates_committed (NewSQLiteEndpointRepository "endpoints")
              (mkEndpoint 0 "x" "u" "GET" "{}") (mkEndpoint 0 "y" "u" "GET" "{}") 4
              (mkWorld "endpoints" [mkRow 1 "a" "u" "GET" "{}"]
                 (Some (4, [mkRow 1 "a" "u" "GET" "{}"])) [] 5 (fun _ => false) 0 []))
    as (_ & _ & _ & _ & Hr & _).
  - reflexivity.
  - reflexivity.
  - reflexivity.
  - intros n. reflexivity.
  - reflexivity.
  - vm_compute. reflexivity.
  - exact Hr.
Defined.

(* ================================================================== *)
(** ** Identifiers stay unique *)

Section UniqueIds.

Variable r : SQLiteEndpointRepository.

Lemma filter_keeps_unique (keep : Row -> bool) (content : list Row) :
  NoDup (ids_of content) -> NoDup (ids_of (filter keep content)).
Proof.
  unfold ids_of. induction content as [|row content IH]; cbn [map filter]; [trivial|].
  intros H. inversion H as [|? ? Hrow Hrest]; subst.
  destruct (keep row); [|now apply IH].
  cbn [map]. constructor; [|now apply IH].
  intros Hin. apply Hrow. apply in_map_iff in Hin as (other & E & Hother).
  apply filter_In in Hother as [Hother _]. apply in_map_iff. now exists other.
Qed.

Lemma ids_of_set_columns (name url method headers : string) (id : Z) (l : list Row) :
  ids_of (map (Engine.set_columns name url method headers id) l) = ids_of l.
Proof.
  unfold ids_of. rewrite map_map. apply map_ext. intros row.
  unfold Engine.set_columns. now destruct (Sql.has_id id row).
Qed.

Lemma run_write_unique (st : Stmt) (args : list value) (l l' : list Row) (z : Z) :
  Engine.run_write st args l = Ok (l', z) ->
  NoDup (ids_of l) -> NoDup (ids_of l').
Proof.
  intros H Hu. unfold Engine.run_write in H.
  repeat match type of H with
         | match ?x with _ => _ end = _ => destruct x eqn:?; try discriminate H
         end; injection H as <- _.
  - match goal with
    | Hfit : (_ <? _)%Z = true |- _ => apply Z.ltb_lt in Hfit; rename Hfit into Hnew
    end.
    unfold ids_of. rewrite map_app. cbn [map]. rewrite (r_id_new _ _ _ _ _ Hnew).
    apply NoDup_app; [exact Hu | repeat constructor; intros [] |].
    intros x Hx [<-|[]]. apply in_map_iff in Hx as (row & E & Hin).
    apply max_id_bound in Hin. lia.
  - now rewrite ids_of_set_columns.
  - now apply filter_keeps_unique.
  - now apply filter_keeps_unique.
Qed.

Lemma mutate_keeps_unique_ids (m : mutation) (tx : option nat) (w : World) :
  keeps_unique_ids w (snd (mutate r m tx w)).
Proof.
  destruct w as [tbl content otx sts nh orc clk lg].
  destruct tx as [t|]; destruct m as [e|e|id|ids]; run;
    cbv [keeps_unique_ids unique_ids visible]; cbn [rows open_tx];
    intros [H1 H2]; split;
    solve [ assumption | eauto using run_write_unique ].
Qed.

End UniqueIds.

(** X14: every mutation, on every path, keeps the identifiers of the rows
    distinct, in the committed table and in what the open transaction
    sees. *)
Theorem identifiers_stay_unique
    (r : SQLiteEndpointRepository) (m : mutation) (tx : option nat) (w : World) :
  unique_ids w -> unique_ids (snd (mutate r m tx w)).
Proof. apply (mutate_keeps_unique_ids r m tx w). Qed.

Lemma identifiers_stay_unique_witness :
  unique_ids
    (snd (mutate (NewSQLiteEndpointRepository "endpoints")
            (DoCreate (Some (mkEndpoint 0 "c" "u" "GET" "{}"))) None
            (mkWorld "endpoints"
               [mkRow 2 "b" "u" "GET" "{}"; mkRow 1 "a" "u" "GET" "{}"]
               None [] 0 (fun _ => false) 0 []))).
Proof.
  apply (identifiers_stay_unique (NewSQLiteEndpointRepository "endpoints")
           (DoCreate (Some (mkEndpoint 0 "c" "u" "GET" "{}"))) None
           (mkWorld "endpoints"
              [mkRow 2 "b" "u" "GET" "{}"; mkRow 1 "a" "u" "GET" "{}"]
              None [] 0 (fun _ => false) 0 [])).
  split; cbn; repeat constructor; cbn; intuition discriminate.
Defined.

(* ================================================================== *)
(** ** No failure is swallowed *)

Section Propagation.

Variable r : SQLiteEndpointRepository.

Ltac finish_clean :=
  cbv [success_was_clean]; cbn [fst snd clock oracle];
  first
    [ intros H; discriminate H
    | let tick := fresh "tick" in
      intros _ tick ?;
      repeat match goal with
             | Hb : ?o ?k = false |- ?o tick = false =>
                 destruct (Nat.eq_dec tick k) as [->|?]; [exact Hb|]; clear Hb
             end;
      exfalso; lia ].

Lemma perform_success_was_clean (c : call) (w : World) :
  success_was_clean w (perform r c w).
Proof.
  destruct w as [tbl content otx sts nh orc clk lg].
  destruct c as [id|query| |[e|e|id|ids] tx].
  - cbv [perform]. run; finish_clean.
  - cbv [perform]. destruct (find_statement r query) as [text args] eqn:E.
    unfold Repo.Find. rewrite E. run; finish_clean.
  - cbv [perform]. run; finish_clean.
  - cbv [perform]. run; finish_clean.
  - cbv [perform]. run; finish_clean.
  - cbv [perform]. run; finish_clean.
  - cbv [perform]. run; finish_clean.
Qed.

End Propagation.

(** X15: when an operation returns without error, none of the calls it made on
    the engine had failed: a failure of Begin, Prepare, Exec, Query,
    LastInsertId or Commit always reaches the caller. *)
Theorem no_failure_is_swallowed
    (r : SQLiteEndpointRepository) (c : call) (w : World) :
  fst (perform r c w) = Succeeded ->
  forall n, (clock w <= n < clock (snd (perform r c w)))%nat -> oracle w n = false.
Proof. apply (perform_success_was_clean r c w). Qed.

Lemma no_failure_is_swallowed_witness :
  let r := NewSQLiteEndpointRepository "endpoints" in
  let w := mkWorld "endpoints" [mkRow 1 "a" "u" "GET" "{}"] None [] 0
             (fun n => Nat.eqb n 4) 0 [] in
  let c := CallMutate (DoUpdate (Some (mkEndpoint 1 "b" "u" "GET" "{}"))) None in
  fst (perform r c w) = Succeeded /\
  clock (snd (perform r c w)) = 4 /\
  forall n, (0 <= n < 4)%nat -> Nat.eqb n 4 = false.
Proof.
  cbv zeta. split; [vm_compute; reflexivity|]. split; [vm_compute; reflexivity|].
  apply (no_failure_is_swallowed (NewSQLiteEndpointRepository "endpoints")
           (CallMutate (DoUpdate (Some (mkEndpoint 1 "b" "u" "GET" "{}"))) None)
           (mkWorld "endpoints" [mkRow 1 "a" "u" "GET" "{}"] None [] 0
              (fun n => Nat.eqb n 4) 0 [])).
  vm_compute. reflexivity.
Defined.

(* ================================================================== *)
(** ** More about Find *)

Section Windows.

Lemma firstn_add_skipn {A : Type} (a b : nat) (l : list A) :
  (firstn a l ++ firstn b (skipn a l))%list = firstn (a + b) l.
Proof.
  revert l. induction a as [|a IH]; intros l; [reflexivity|].
  destruct l as [|x l]; cbn [firstn skipn app Nat.add].
  - now rewrite firstn_nil.
  - now rewrite IH.
Qed.

Lemma window_pages (n m k : Z) (l : list Row) :
  (0 < n)%Z -> (0 < m)%Z -> (0 <= k)%Z ->
  (Sql.window n k l ++ Sql.window m (k + n) l)%list = Sql.window (n + m) k l.
Proof.
  intros Hn Hm Hk. unfold Sql.window.
  destruct (Z.ltb_spec n 0); [lia|].
  destruct (Z.ltb_spec m 0); [lia|].
  destruct (Z.ltb_spec (n + m) 0); [lia|].
  rewrite (Z2Nat.inj_add k n), (Z2Nat.inj_add n m) by lia.
  rewrite (Nat.add_comm (Z.to_nat k)), <- skipn_skipn.
  apply firstn_add_skipn.
Qed.

Lemma Forall_firstn {A : Type} (P : A -> Prop) (n : nat) (l : list A) :
  Forall P l -> Forall P (firstn n l).
Proof.
  intros H. revert n. induction H as [|x l Hx Hl IH]; intros n.
  - rewrite firstn_nil. constructor.
  - destruct n as [|n]; cbn [firstn]; constructor; [exact Hx | apply IH].
Qed.

Lemma StronglySorted_firstn {A : Type} (R : A -> A -> Prop) (n : nat) (l : list A) :
  StronglySorted R l -> StronglySorted R (firstn n l).
Proof.
  intros H. revert n. induction H as [|x l Hl IH Hx]; intros n.
  - rewrite firstn_nil. constructor.
  - destruct n as [|n]; cbn [firstn]; constructor;
      [apply IH | now apply Forall_firstn].
Qed.

Lemma Forall_skipn {A : Type} (P : A -> Prop) (n : nat) (l : list A) :
  Forall P l -> Forall P (skipn n l).
Proof.
  revert l. induction n as [|n IH]; intros l H; [exact H|].
  destruct H as [|x l Hx Hl]; [constructor|]. now apply IH.
Qed.

Lemma StronglySorted_skipn {A : Type} (R : A -> A -> Prop) (n : nat) (l : list A) :
  StronglySorted R l -> StronglySorted R (skipn n l).
Proof.
  revert l. induction n as [|n IH]; intros l H; [exact H|].
  destruct H as [|x l Hl Hx]; [constructor|]. now apply IH.
Qed.

Lemma window_incl (take skip : Z) (l : list Row) (row : Row) :
  In row (Sql.window take skip l) -> In row l.
Proof.
  assert (Forall (fun x => In x l) (Sql.window take skip l)) as H.
  { unfold Sql.window. destruct (take <? 0)%Z;
      [|apply Forall_firstn]; apply Forall_skipn, Forall_forall; trivial. }
  rewrite Forall_forall in H. apply H.
Qed.

Lemma id_le_transitive : Relations_1.Transitive id_le.
Proof. intros a b c. unfold id_le. lia. Qed.

Lemma find_rows_sorted (q : EndpointQuery) (content : list Row) :
  Sorted id_le (find_rows q content).
Proof.
  unfold find_rows, paginate, Sql.window.
  pose proof (Sorted_StronglySorted id_le_transitive
                (order_by_id_sorted (selected (qName q) content))) as H.
  apply StronglySorted_Sorted.
  destruct (qTake q >? 0)%Z; [|exact H].
  destruct (qTake q <? 0)%Z.
  - now apply StronglySorted_skipn.
  - now apply StronglySorted_firstn, StronglySorted_skipn.
Qed.

Lemma selected_incl (name : string) (content : list Row) (row : Row) :
  In row (selected name content) -> In row content.
Proof.
  unfold selected. destruct (String.eqb name ""); [trivial|].
  destruct (mode_of name); intros H; now apply filter_In in H.
Qed.

Lemma find_rows_incl (q : EndpointQuery) (content : list Row) (row : Row) :
  In row (find_rows q content) -> In row content.
Proof.
  unfold find_rows, paginate. intros H.
  apply (selected_incl (qName q)).
  apply (Permutation_in row (Permutation_sym (order_by_id_perm _))).
  destruct (qTake q >? 0)%Z; [now apply window_incl in H | exact H].
Qed.

End Windows.

(** X16: on a healthy connection, the page of n entities after k followed by
    the page of m entities after k + n is the page of n + m entities after
    k: consecutive windows neither lose nor repeat an entity. *)
Theorem Find_pages_compose
    (r : SQLiteEndpointRepository) (name : string) (n m k : Z) (w : World) :
  serves r w -> quiet w -> (0 < n)%Z -> (0 < m)%Z -> (0 <= k)%Z ->
  exists first second,
    fst (Repo.Find r (filter_of name n k) w) = Return (Ok first) /\
    fst (Repo.Find r (filter_of name m (k + n)) w) = Return (Ok second) /\
    fst (Repo.Find r (filter_of name (n + m) k) w) = Return (Ok (first ++ second)%list).
Proof.
  intros Hs Hq Hn Hm Hk. unfold filter_of.
  rewrite !(Find_healthy r _ w Hs Hq).
  do 2 eexists. split; [reflexivity|]. split; [reflexivity|].
  unfold find_rows, paginate. cbn [qName qTake qSkip].
  destruct (Z.gtb_spec n 0); [|lia].
  destruct (Z.gtb_spec m 0); [|lia].
  destruct (Z.gtb_spec (n + m) 0); [|lia].
  now rewrite <- map_app, window_pages.
Qed.

Lemma Find_pages_compose_witness :
  let r := NewSQLiteEndpointRepository "endpoints" in
  let w := mkWorld "endpoints"
             [mkRow 3 "c" "u" "GET" "{}"; mkRow 1 "a" "u" "GET" "{}";
              mkRow 2 "b" "u" "GET" "{}"; mkRow 4 "d" "u" "GET" "{}"]
             None [] 0 (fun _ => false) 0 [] in
  exists first second,
    fst (Repo.Find r (filter_of "" 1 1) w) = Return (Ok first) /\
    fst (Repo.Find r (filter_of "" 2 (1 + 1)) w) = Return (Ok second) /\
    fst (Repo.Find r (filter_of "" (1 + 2) 1) w) = Return (Ok (first ++ second)%list).
Proof.
  cbv zeta.
  apply (Find_pages_compose (NewSQLiteEndpointRepository "endpoints") "" 1 2 1
           (mkWorld "endpoints"
              [mkRow 3 "c" "u" "GET" "{}"; mkRow 1 "a" "u" "GET" "{}";
               mkRow 2 "b" "u" "GET" "{}"; mkRow 4 "d" "u" "GET" "{}"]
              None [] 0 (fun _ => false) 0 [])).
  - reflexivity.
  - intros x. reflexivity.
  - lia.
  - lia.
  - lia.
Defined.

(** X17: on a healthy connection, whatever the name pattern and the window of a
    non-nil filter, Find returns entities of rows of the committed table,
    in ascending order of identifier. *)
Theorem Find_returns_table_rows_in_order
    (r : SQLiteEndpointRepository) (q : EndpointQuery) (w : World) :
  serves r w -> quiet w ->
  exists l,
    fst (Repo.Find r (Some q) w) = Return (Ok (map endpoint_of_row l)) /\
    Sorted id_le l /\ incl l (rows w).
Proof.
  intros Hs Hq. exists (find_rows q (rows w)).
  split; [apply (Find_healthy r q w Hs Hq)|].
  split; [apply find_rows_sorted|].
  intros row. apply find_rows_incl.
Qed.

Lemma Find_returns_table_rows_in_order_witness :
  exists l,
    fst (Repo.Find (NewSQLiteEndpointRepository "endpoints")
           (Some (mkEndpointQuery "*A*" 0 0))
           (mkWorld "endpoints"
              [mkRow 3 "ca" "u" "GET" "{}"; mkRow 1 "a" "u" "GET" "{}";
               mkRow 2 "b" "u" "GET" "{}"]
              None [] 0 (fun _ => false) 0 []))
    = Return (Ok (map endpoint_of_row l)) /\
    Sorted id_le l /\
    incl l [mkRow 3 "ca" "u" "GET" "{}"; mkRow 1 "a" "u" "GET" "{}";
            mkRow 2 "b" "u" "GET" "{}"].
Proof.
  apply (Find_returns_table_rows_in_order (NewSQLiteEndpointRepository "endpoints")
           (mkEndpointQuery "*A*" 0 0)
           (mkWorld "endpoints"
              [mkRow 3 "ca" "u" "GET" "{}"; mkRow 1 "a" "u" "GET" "{}";
               mkRow 2 "b" "u" "GET" "{}"]
              None [] 0 (fun _ => false) 0 [])).
  - reflexivity.
  - intros x. reflexivity.
Defined.

Section NamePatterns.

Lemma only_asterisks_both_ends (name : string) :
  name <> "" -> remove_char "*" name = "" ->
  starts_with_star name = true /\ ends_with_star name = true.
Proof.
  intros Hne Hall. split.
  - destruct name as [|c name]; [contradiction|]. cbn [remove_char] in Hall.
    cbn [starts_with_star]. destruct (Ascii.eqb c "*"); [reflexivity | discriminate].
  - destruct name as [|c name]; [contradiction|]. clear Hne.
    unfold ends_with_star. revert c Hall.
    induction name as [|d name IH]; intros c Hall; cbn [remove_char] in Hall;
      destruct (Ascii.eqb c "*") eqn:E; try discriminate.
    + cbn. exact E.
    + change (last_char (String c (String d name))) with (last_char (String d name)).
      now apply IH.
Qed.

Lemma like_two_percent (s : string) : Sql.like "%%" s = true.
Proof.
  apply (like_percent "%" s). exists "", s. split; [reflexivity | apply like_anything].
Qed.

Lemma filter_all {A : Type} (p : A -> bool) (l : list A) :
  (forall x, p x = true) -> filter p l = l.
Proof.
  intros H. induction l as [|x l IH]; [reflexivity|].
  cbn [filter]. now rewrite H, IH.
Qed.

Lemma selected_only_asterisks (name : string) (content : list Row) :
  name <> "" -> remove_char "*" name = "" -> selected name content = content.
Proof.
  intros Hne Hall. unfold selected, mode_of.
  destruct (only_asterisks_both_ends name Hne Hall) as [-> ->].
  destruct (String.eqb_spec name "") as [E|_]; [contradiction|].
  cbn [parameter]. rewrite Hall. apply filter_all. intros row.
  apply like_two_percent.
Qed.

Lemma selected_exact (name : string) (content : list Row) :
  name <> "" -> HasPrefix name "*" = false -> HasSuffix name "*" = false ->
  selected name content = filter (fun row => String.eqb (r_name row) name) content.
Proof.
  intros Hne Hp Hs. unfold selected, mode_of.
  rewrite <- HasPrefix_star, <- HasSuffix_star, Hp, Hs.
  destruct (String.eqb_spec name "") as [E|_]; [contradiction | reflexivity].
Qed.

End NamePatterns.

(** X18: on a healthy connection, a name pattern without a leading or trailing
    asterisk and without a window selects exactly the rows whose name is
    the pattern, byte for byte, asterisks inside it included. *)
Theorem Find_exact_name
    (r : SQLiteEndpointRepository) (q : EndpointQuery) (w : World) :
  serves r w -> quiet w ->
  qName q <> "" -> HasPrefix (qName q) "*" = false -> HasSuffix (qName q) "*" = false ->
  (qTake q <= 0)%Z ->
  exists l,
    fst (Repo.Find r (Some q) w) = Return (Ok (map endpoint_of_row l)) /\
    forall row, In row l <-> In row (rows w) /\ r_name row = qName q.
Proof.
  intros Hs Hq Hne Hp Hsuf Ht. exists (find_rows q (rows w)).
  split; [apply (Find_healthy r q w Hs Hq)|].
  intros row. unfold find_rows, paginate.
  destruct (Z.gtb_spec (qTake q) 0) as [Hpos|_]; [lia|].
  rewrite (selected_exact _ _ Hne Hp Hsuf). split.
  - intros Hrow.
    apply (Permutation_in row (Permutation_sym (order_by_id_perm _))) in Hrow.
    apply filter_In in Hrow as [Hin E]. now apply String.eqb_eq in E.
  - intros [Hin E]. apply (Permutation_in row (order_by_id_perm _)).
    apply filter_In. split; [exact Hin | now apply String.eqb_eq].
Qed.

Lemma Find_exact_name_witness :
  exists l,
    fst (Repo.Find (NewSQLiteEndpointRepository "endpoints")
           (Some (mkEndpointQuery "a*b" 0 0))
           (mkWorld "endpoints"
              [mkRow 1 "a*b" "u" "GET" "{}"; mkRow 2 "axb" "u" "GET" "{}";
               mkRow 3 "A*B" "u" "GET" "{}"]
              None [] 0 (fun _ => false) 0 []))
    = Return (Ok (map endpoint_of_row l)) /\
    forall row,
      In row l <->
      In row [mkRow 1 "a*b" "u" "GET" "{}"; mkRow 2 "axb" "u" "GET" "{}";
              mkRow 3 "A*B" "u" "GET" "{}"] /\ r_name row = "a*b".
Proof.
  apply (Find_exact_name (NewSQLiteEndpointRepository "endpoints")
           (mkEndpointQuery "a*b" 0 0)
           (mkWorld "endpoints"
              [mkRow 1 "a*b" "u" "GET" "{}"; mkRow 2 "axb" "u" "GET" "{}";
               mkRow 3 "A*B" "u" "GET" "{}"]
              None [] 0 (fun _ => false) 0 [])).
  - reflexivity.
  - intros x. reflexivity.
  - discriminate.
  - reflexivity.
  - reflexivity.
  - cbn. lia.
Defined.

(** X19: on a healthy connection, a name pattern made of asterisks only returns
    what the empty pattern returns: every row, through the same window. *)
Theorem Find_only_asterisks
    (r : SQLiteEndpointRepository) (name : string) (take skip : Z) (w : World) :
  serves r w -> quiet w -> name <> "" -> remove_char "*" name = "" ->
  fst (Repo.Find r (filter_of name take skip) w)
  = fst (Repo.Find r (filter_of "" take skip) w).
Proof.
  intros Hs Hq Hne Hall. unfold filter_of.
  rewrite !(Find_healthy r _ w Hs Hq). unfold find_rows.
  cbn [qName qTake qSkip]. now rewrite (selected_only_asterisks _ _ Hne Hall).
Qed.

Lemma Find_only_asterisks_witness :
  let r := NewSQLiteEndpointRepository "endpoints" in
  let w := mkWorld "endpoints"
             [mkRow 2 "b" "u" "GET" "{}"; mkRow 1 "a" "u" "GET" "{}"]
             None [] 0 (fun _ => false) 0 [] in
  fst (Repo.Find r (filter_of "**" 0 0) w)
  = Return (Ok [mkEndpoint 1 "a" "u" "GET" "{}"; mkEndpoint 2 "b" "u" "GET" "{}"]).
Proof.
  cbv zeta.
  rewrite (Find_only_asterisks (NewSQLiteEndpointRepository "endpoints") "**" 0 0
             (mkWorld "endpoints"
                [mkRow 2 "b" "u" "GET" "{}"; mkRow 1 "a" "u" "GET" "{}"]
                None [] 0 (fun _ => false) 0 [])).
  - vm_compute. reflexivity.
  - reflexivity.
  - intros x. reflexivity.
  - discriminate.
  - reflexivity.
Defined.

(** X20: for every filter, nil included, the text Find builds after the table
    name has as many placeholders as Find binds arguments. *)
Theorem placeholders_match_arguments
    (r : SQLiteEndpointRepository) (query : option EndpointQuery) :
  exists tail,
    fst (find_statement r query) = select_text (tableName r) ++ tail /\
    count_char "?" tail = List.length (snd (find_statement r query)).
Proof.
  destruct query as [q|].
  - destruct (String.eqb_spec (qName q) "") as [E|E].
    + rewrite (find_statement_unnamed r q E). eexists. split; [reflexivity|].
      unfold window_text, window_args. cbn [snd].
      destruct (qTake q >? 0)%Z; reflexivity.
    + rewrite (find_statement_named r q E). eexists. split; [reflexivity|].
      unfold window_text, window_args. cbn [snd].
      destruct (mode_of (qName q)), (qTake q >? 0)%Z; reflexivity.
  - rewrite find_statement_nil. eexists. split; reflexivity.
Qed.

(** X21: Find with a nil filter never returns a sequence: it returns the error
    of Prepare or Query when one of them fails, and panics otherwise. *)
Theorem Find_nil_never_returns_rows (r : SQLiteEndpointRepository) (w : World) :
  (exists err, fst (Repo.Find r None w) = Return (Err err)) \/
  fst (Repo.Find r None w) = Panic nil_dereference.
Proof.
  destruct w as [tbl content otx sts nh orc clk lg].
  unfold Repo.Find. destruct (find_statement r None) as [text args].
  run; cbn [fst]; first [ right; reflexivity | left; eexists; reflexivity ].
Qed.

(* ================================================================== *)
(** ** The statement of a borrowed mutation *)

Section LeftOpen.

Variable r : SQLiteEndpointRepository.

Lemma borrowed_statement_stays (m : mutation) (t : nat) (w : World) :
  invalid_input (CallMutate m (Some t)) = false ->
  serves r w -> quiet w -> open_handle w = Some t ->
  stmts (snd (mutate r m (Some t) w))
  = (next_handle w, (Some t, statement_of m)) :: stmts w.
Proof.
  destruct w as [tbl content otx sts nh orc clk lg].
  unfold serves, quiet, open_handle; cbn [table oracle open_tx next_handle stmts].
  intros Hvalid -> Hq Hopen.
  destruct otx as [[t' view]|]; cbn [option_map fst] in Hopen; [|discriminate].
  injection Hopen as ->.
  destruct m as [[e|]|[e|]|id|ids]; cbn [invalid_input] in Hvalid;
    try discriminate; cbn [statement_of].
  - apply negb_false_iff, N.eqb_eq in Hvalid.
    cbv [mutate bind ret Repo.Create]. rewrite Hvalid. change (0 <? 0)%N with false.
    run_quiet Hq. rewrite compile_insert_text. run_quiet Hq.
    cbn [Engine.run_write].
    destruct (Z.of_N (N.succ (Sql.max_id view)) <? 2 ^ 63)%Z; run_quiet Hq; reflexivity.
  - cbv [mutate bind ret Repo.Update]. rewrite Hvalid.
    assert ((Id e <? 0)%N = false) as -> by (apply N.ltb_ge; lia). cbn [orb].
    run_quiet Hq. rewrite compile_update_text. run_quiet Hq.
    destruct (Z.of_N (Id e) <? 2 ^ 63)%Z; run_quiet Hq;
      cbn [Engine.run_write]; run_quiet Hq; reflexivity.
  - cbv [mutate bind ret Repo.Delete]. rewrite Hvalid.
    run_quiet Hq. rewrite compile_delete_text. run_quiet Hq.
    destruct (Z.of_N id <? 2 ^ 63)%Z; run_quiet Hq;
      cbn [Engine.run_write]; run_quiet Hq; reflexivity.
  - assert (ids <> []) as Hne by (destruct ids; [discriminate | discriminate]).
    cbv [mutate bind ret Repo.DeleteMany].
    assert ((List.length ids =? 0)%nat = false) as ->
      by (destruct ids; [discriminate | reflexivity]).
    run_quiet Hq. rewrite (compile_delete_many_text r ids Hne). run_quiet Hq.
    cbn [Engine.run_write]. run_quiet Hq. reflexivity.
Qed.

Lemma end_closes_statements (t : nat) (w : World) :
  open_handle w = Some t ->
  statements_of t (snd (Driver.Commit t w)) = [] /\
  statements_of t (snd (Driver.Rollback t w)) = [].
Proof.
  destruct w as [tbl content otx sts nh orc clk lg].
  unfold open_handle, statements_of; cbn [open_tx]. intros Hopen.
  destruct otx as [[t' view]|]; cbn [option_map fst] in Hopen; [|discriminate].
  injection Hopen as ->.
  assert (forall l : list (nat * (option nat * Stmt)),
            filter (Driver.owned_by t)
              (filter (fun s => negb (Driver.owned_by t s)) l) = []) as Hnone.
  { induction l as [|s l IH]; [reflexivity|]. cbn [filter].
    destruct (Driver.owned_by t s) eqn:E; cbn [negb]; [exact IH|].
    cbn [filter]. now rewrite E. }
  split; unfold_calls; rewrite Nat.eqb_refl; unfold_calls;
    destruct (orc clk); cbn [snd stmts]; apply Hnone.
Qed.

End LeftOpen.

(** X22: a mutation with valid input that is given the open transaction of a
    caller leaves the statement it prepared open when it returns, whether
    it succeeded or not; the statement is closed only when the caller
    commits or rolls back. *)
Theorem borrowed_statement_open_until_end
    (r : SQLiteEndpointRepository) (m : mutation) (t : nat) (w : World) :
  invalid_input (CallMutate m (Some t)) = false ->
  serves r w -> quiet w -> open_handle w = Some t ->
  let w' := snd (mutate r m (Some t) w) in
  stmts w' = (next_handle w, (Some t, statement_of m)) :: stmts w /\
  statements_of t (snd (Driver.Commit t w')) = [] /\
  statements_of t (snd (Driver.Rollback t w')) = [].
Proof.
  intros Hvalid Hs Hq Hopen. cbv zeta.
  split; [now apply borrowed_statement_stays|].
  apply end_closes_statements.
  destruct (borrowed_untouched r m t w) as (_ & _ & Hh). congruence.
Qed.

Lemma borrowed_statement_open_until_end_witness :
  let r := NewSQLiteEndpointRepository "endpoints" in
  let w := mkWorld "endpoints" [mkRow 1 "a" "u" "GET" "{}"]
             (Some (4, [mkRow 1 "a" "u" "GET" "{}"])) [] 5 (fun _ => false) 0 [] in
  let w' := snd (mutate r (DoDelete 1) (Some 4) w) in
  stmts w' = [(5, (Some 4, SDeleteById))] /\
  statements_of 4 (snd (Driver.Commit 4 w')) = [] /\
  statements_of 4 (snd (Driver.Rollback 4 w')) = [].
Proof.
  cbv zeta.
  apply (borrowed_statement_open_until_end (NewSQLiteEndpointRepository "endpoints")
           (DoDelete 1) 4
           (mkWorld "endpoints" [mkRow 1 "a" "u" "GET" "{}"]
              (Some (4, [mkRow 1 "a" "u" "GET" "{}"])) [] 5 (fun _ => false) 0 [])).
  - reflexivity.
  - reflexivity.
  - intros n. reflexivity.
  - reflexivity.
Defined.
